(** * Screencast settings, hover controller and interactive-session
      bridge of the editor workbench.

    The development is a shallow embedding of three TypeScript sources:
    - [vs/workbench/browser/actions/developerActions.ts]
      (module [Screencast]),
    - [vs/editor/contrib/hover/browser/hover.ts] (module [Hover]),
    - [vs/workbench/api/browser/mainThreadInteractiveSession.ts]
      (module [Bridge]). *)

From Stdlib Require Import QArith Ascii String.
From stdpp Require Import base option list strings pretty gmap.

Local Open Scope Z_scope.

(** ** JavaScript numbers

    The settings of the screencast overlay end up as JavaScript numbers.
    Every finite double is a rational, so finite values are carried as
    [Q]; the three special values are kept apart.  Only comparisons are
    performed on them, hence no rounding is involved. *)
Module JsNumber.

Inductive t : Type :=
| NaN
| NegInfinity
| Finite (q : Q)
| PosInfinity.

Definition of_Z (z : Z) : t := Finite (inject_Z z).

(** Truthiness of a number: [NaN], [0] and [-0] are falsy. *)
Definition truthy (x : t) : bool :=
  match x with
  | NaN => false
  | Finite q => negb (Qeq_bool q 0)
  | NegInfinity | PosInfinity => true
  end.

(** [a <= b] on numbers that are not [NaN]. *)
Definition leb (a b : t) : bool :=
  match a, b with
  | NaN, _ | _, NaN => false
  | NegInfinity, _ => true
  | _, PosInfinity => true
  | Finite p, Finite q => Qle_bool p q
  | _, _ => false
  end.

(** [Math.max] and [Math.min] of two arguments: [NaN] is contagious. *)
Definition max (a b : t) : t :=
  match a, b with
  | NaN, _ | _, NaN => NaN
  | _, _ => if leb a b then b else a
  end.

Definition min (a b : t) : t :=
  match a, b with
  | NaN, _ | _, NaN => NaN
  | _, _ => if leb a b then a else b
  end.

(** Modelled from the spec: [clamp] of [vs/base/common/numbers], which
    developerActions.ts imports and whose file is not among the sources.
    The spec calls the settings "simple scalar settings with defaults
    and clamped ranges"; the helper is the usual
    [Math.min(Math.max(value, min), max)]. *)
Definition clamp (value lo hi : t) : t := min (max value lo) hi.

(** [lo <= x <= hi], for a finite [x]. *)
Definition within (lo hi : Z) (x : t) : Prop :=
  match x with
  | Finite q => (inject_Z lo <= q)%Q /\ (q <= inject_Z hi)%Q
  | _ => False
  end.

End JsNumber.

(** ** JavaScript values

    A setting read from the configuration is whatever the user has
    written: [getValue<number>] does not check it.  The overlay only
    asks a value whether it is truthy ([||]) and which number it
    converts to ([Math.max] and [Math.min] convert their arguments).  A
    text and an object carry the number they convert to. *)
Module JsValue.

Inductive t : Type :=
| Undefined
| Null
| Boolean (b : bool)
| Number (n : JsNumber.t)
| Text (s : string) (converted : JsNumber.t)
| Object (converted : JsNumber.t).

Definition of_Z (z : Z) : t := Number (JsNumber.of_Z z).

Definition truthy (v : t) : bool :=
  match v with
  | Undefined | Null => false
  | Boolean b => b
  | Number n => JsNumber.truthy n
  | Text s _ => negb (String.eqb s "")
  | Object _ => true
  end.

(** [ToNumber]. *)
Definition toNumber (v : t) : JsNumber.t :=
  match v with
  | Undefined => JsNumber.NaN
  | Null => JsNumber.of_Z 0
  | Boolean b => JsNumber.of_Z (if b then 1 else 0)
  | Number n => n
  | Text _ converted => converted
  | Object converted => converted
  end.

End JsValue.

(** ** Screencast overlay settings (developerActions.ts) *)
Module Screencast.

(** The defaults that the file registers for the keys of
    [screencastMode] with [registerConfiguration]. *)
Definition registeredDefaults : gmap string JsValue.t :=
  list_to_map
    [("screencastMode.verticalOffset", JsValue.of_Z 20);
     ("screencastMode.fontSize", JsValue.of_Z 56);
     ("screencastMode.keyboardShortcutsFormat",
      JsValue.Text "commandAndKeys" JsNumber.NaN);
     ("screencastMode.onlyKeyboardShortcuts", JsValue.Boolean false);
     ("screencastMode.hideSingleEditorCursorMoves", JsValue.Boolean false);
     ("screencastMode.keyboardOverlayTimeout", JsValue.of_Z 800);
     ("screencastMode.mouseIndicatorColor",
      JsValue.Text "#FF0000" JsNumber.NaN);
     ("screencastMode.mouseIndicatorSize", JsValue.of_Z 20)].

(** Modelled from the spec: [configurationService.getValue] (the
    configuration service is not among the sources): the value the user
    has set for [key], whatever it is, and for a key that is not set the
    default registered for it. *)
Definition getValue (configurationService : gmap string JsValue.t)
    (key : string) : JsValue.t :=
  match configurationService !! key with
  | Some v => v
  | None => default JsValue.Undefined (registeredDefaults !! key)
  end.

(** [value || fallback]; [clamp], which receives the result, converts
    it to a number ([Math.max]). *)
Definition or_else (value : JsValue.t) (fallback : Z) : JsValue.t :=
  if JsValue.truthy value then value else JsValue.of_Z fallback.

(** The part of the overlay that the scalar settings drive:
    [mouseIndicatorSize] (also the marker's height and width in px),
    the keyboard marker's [fontSize] in px, its [bottom] in percent
    and [keyboardMarkerTimeout] in ms. *)
Record Overlay : Type := {
  mouseIndicatorSize : JsNumber.t;
  keyboardFontSize : JsNumber.t;
  keyboardBottom : JsNumber.t;
  keyboardMarkerTimeout : JsNumber.t
}.

Section Updates.
Variable configurationService : gmap string JsValue.t.

Definition updateMouseIndicatorSize (o : Overlay) : Overlay :=
  {| mouseIndicatorSize :=
       JsNumber.clamp
         (JsValue.toNumber
            (or_else (getValue configurationService "screencastMode.mouseIndicatorSize")
                     20))
         (JsNumber.of_Z 20) (JsNumber.of_Z 100);
     keyboardFontSize := keyboardFontSize o;
     keyboardBottom := keyboardBottom o;
     keyboardMarkerTimeout := keyboardMarkerTimeout o |}.

Definition updateKeyboardFontSize (o : Overlay) : Overlay :=
  {| mouseIndicatorSize := mouseIndicatorSize o;
     keyboardFontSize :=
       JsNumber.clamp
         (JsValue.toNumber
            (or_else (getValue configurationService "screencastMode.fontSize")
                     56))
         (JsNumber.of_Z 20) (JsNumber.of_Z 100);
     keyboardBottom := keyboardBottom o;
     keyboardMarkerTimeout := keyboardMarkerTimeout o |}.

Definition updateKeyboardMarker (o : Overlay) : Overlay :=
  {| mouseIndicatorSize := mouseIndicatorSize o;
     keyboardFontSize := keyboardFontSize o;
     keyboardBottom :=
       JsNumber.clamp
         (JsValue.toNumber
            (or_else (getValue configurationService "screencastMode.verticalOffset")
                     0))
         (JsNumber.of_Z 0) (JsNumber.of_Z 90);
     keyboardMarkerTimeout := keyboardMarkerTimeout o |}.

Definition updateKeyboardMarkerTimeout (o : Overlay) : Overlay :=
  {| mouseIndicatorSize := mouseIndicatorSize o;
     keyboardFontSize := keyboardFontSize o;
     keyboardBottom := keyboardBottom o;
     keyboardMarkerTimeout :=
       JsNumber.clamp
         (JsValue.toNumber
            (or_else (getValue configurationService "screencastMode.keyboardOverlayTimeout")
                     800))
         (JsNumber.of_Z 500) (JsNumber.of_Z 5000) |}.

(** The four updates as [run] performs them when the mode is switched
    on: the mouse indicator first, then font size, offset, timeout. *)
Definition run_updates (o : Overlay) : Overlay :=
  updateKeyboardMarkerTimeout
    (updateKeyboardMarker
       (updateKeyboardFontSize
          (updateMouseIndicatorSize o))).

(** The listener of [onDidChangeConfiguration]: each update runs again
    when the event affects its key. *)
Definition onDidChangeConfiguration (affectsConfiguration : string -> bool)
    (o : Overlay) : Overlay :=
  let o := if affectsConfiguration "screencastMode.verticalOffset"
           then updateKeyboardMarker o else o in
  let o := if affectsConfiguration "screencastMode.fontSize"
           then updateKeyboardFontSize o else o in
  let o := if affectsConfiguration "screencastMode.keyboardOverlayTimeout"
           then updateKeyboardMarkerTimeout o else o in
  let o := if affectsConfiguration "screencastMode.mouseIndicatorSize"
           then updateMouseIndicatorSize o else o in
  o.
End Updates.

(** The four keys of the scalar settings. *)
Definition scalar_keys : list string :=
  ["screencastMode.mouseIndicatorSize"; "screencastMode.fontSize";
   "screencastMode.verticalOffset"; "screencastMode.keyboardOverlayTimeout"].

(** The value converts to a number, or it is falsy. *)
Definition converts (v : JsValue.t) : Prop :=
  JsValue.truthy v = false \/ JsValue.toNumber v <> JsNumber.NaN.

(** Every scalar setting that an update reads, among the keys that
    [affects] selects, converts to a number or is falsy. *)
Definition readable (affects : string -> bool)
    (configurationService : gmap string JsValue.t) : Prop :=
  forall key, key ∈ scalar_keys -> affects key = true ->
              converts (getValue configurationService key).



End Screencast.


(** ** Hover controller (hover.ts) *)
Module Hover.

(** Modelled from the spec: the enumeration [MouseTargetType] of
    [vs/editor/browser/editorBrowser], which hover.ts imports and which
    is not among the sources.  The controller only tells
    [GUTTER_GLYPH_MARGIN], [CONTENT_WIDGET] and [OVERLAY_WIDGET] apart
    from the rest. *)
Inductive MouseTargetType : Type :=
| UNKNOWN | TEXTAREA
| GUTTER_GLYPH_MARGIN | GUTTER_LINE_NUMBERS | GUTTER_LINE_DECORATIONS
| GUTTER_VIEW_ZONE
| CONTENT_TEXT | CONTENT_EMPTY | CONTENT_VIEW_ZONE | CONTENT_WIDGET
| OVERVIEW_RULER | SCROLLBAR | OVERLAY_WIDGET | OUTSIDE_EDITOR.

Definition MouseTargetType_eqb (a b : MouseTargetType) : bool :=
  match a, b with
  | UNKNOWN, UNKNOWN | TEXTAREA, TEXTAREA
  | GUTTER_GLYPH_MARGIN, GUTTER_GLYPH_MARGIN
  | GUTTER_LINE_NUMBERS, GUTTER_LINE_NUMBERS
  | GUTTER_LINE_DECORATIONS, GUTTER_LINE_DECORATIONS
  | GUTTER_VIEW_ZONE, GUTTER_VIEW_ZONE
  | CONTENT_TEXT, CONTENT_TEXT | CONTENT_EMPTY, CONTENT_EMPTY
  | CONTENT_VIEW_ZONE, CONTENT_VIEW_ZONE | CONTENT_WIDGET, CONTENT_WIDGET
  | OVERVIEW_RULER, OVERVIEW_RULER | SCROLLBAR, SCROLLBAR
  | OVERLAY_WIDGET, OVERLAY_WIDGET | OUTSIDE_EDITOR, OUTSIDE_EDITOR => true
  | _, _ => false
  end.

Record Position : Type := { lineNumber : Z; column : Z }.

(** [IMouseTarget]: [detail] is the widget id when the target is a
    content or overlay widget. *)
Record IMouseTarget : Type := {
  type : MouseTargetType;
  detail : string;
  position : option Position
}.

(** [IEditorMouseEvent], with what the controller reads from the browser
    event: [view?.getSelection()?.isCollapsed], which is [undefined]
    when the view or the selection is missing. *)
Record IEditorMouseEvent : Type := {
  target : IMouseTarget;
  selectionIsCollapsed : option bool
}.

(** Modelled from the spec: the identifiers [ContentHoverWidget.ID] and
    [MarginHoverWidget.ID], declared in contentHover.ts and
    marginHover.ts, which are not among the sources. *)
Definition ContentHoverWidget_ID : string := "editor.contrib.contentHoverWidget".
Definition MarginHoverWidget_ID : string := "editor.contrib.modesGlyphHoverWidget".

(** Modelled from the spec: [ContentHoverController] (contentHover.ts is
    not among the sources).  The spec's state has the content widget's
    visibility and whether it was shown from the keyboard; the guard of
    the hide operation queries the colour picker's visibility. *)
Record ContentHoverController : Type := {
  content_visible : bool;
  content_visibleFromKeyboard : bool;
  content_colorPickerVisible : bool
}.

(** Modelled from the spec: a content hover controller that was just
    created shows nothing. *)
Definition ContentHoverController_new : ContentHoverController :=
  {| content_visible := false;
     content_visibleFromKeyboard := false;
     content_colorPickerVisible := false |}.

(** Modelled from the spec: [ContentHoverController.hide] leaves the
    widget, and what it rendered, not visible. *)
Definition ContentHoverController_hide (w : ContentHoverController)
    : ContentHoverController :=
  ContentHoverController_new.

(** [HoverStartSource]. *)
Inductive HoverStartSource : Type := Mouse | Keyboard.

(** Modelled from the spec: [ContentHoverController.startShowingAtRange]
    shows the widget and remembers where the request came from. *)
Definition ContentHoverController_startShowingAtRange
    (source : HoverStartSource) (w : ContentHoverController)
    : ContentHoverController :=
  {| content_visible := true;
     content_visibleFromKeyboard :=
       match source with Keyboard => true | Mouse => false end;
     content_colorPickerVisible := content_colorPickerVisible w |}.

(** Modelled from the spec: [MarginHoverWidget] (marginHover.ts is not
    among the sources): a visibility flag and the line it shows. *)
Record MarginHoverWidget : Type := {
  glyph_visible : bool;
  glyph_lineNumber : Z
}.

(** Modelled from the spec: [MarginHoverWidget.hide]. *)
Definition MarginHoverWidget_hide (w : MarginHoverWidget) : MarginHoverWidget :=
  {| glyph_visible := false; glyph_lineNumber := glyph_lineNumber w |}.

(** Modelled from the spec: [MarginHoverWidget.startShowingAt], "start
    showing at that line". *)
Definition MarginHoverWidget_startShowingAt (line : Z) : MarginHoverWidget :=
  {| glyph_visible := true; glyph_lineNumber := line |}.

(** The fields of [ModesHoverController]. *)
Record ModesHoverController : Type := {
  _contentWidget : option ContentHoverController;
  _glyphWidget : option MarginHoverWidget;
  _isMouseDown : bool;
  _hoverClicked : bool;
  _isHoverEnabled : bool;
  _isHoverSticky : bool
}.

Definition set_contentWidget (w : option ContentHoverController)
    (c : ModesHoverController) : ModesHoverController :=
  {| _contentWidget := w; _glyphWidget := _glyphWidget c;
     _isMouseDown := _isMouseDown c; _hoverClicked := _hoverClicked c;
     _isHoverEnabled := _isHoverEnabled c; _isHoverSticky := _isHoverSticky c |}.

Definition set_glyphWidget (w : option MarginHoverWidget)
    (c : ModesHoverController) : ModesHoverController :=
  {| _contentWidget := _contentWidget c; _glyphWidget := w;
     _isMouseDown := _isMouseDown c; _hoverClicked := _hoverClicked c;
     _isHoverEnabled := _isHoverEnabled c; _isHoverSticky := _isHoverSticky c |}.

Definition set_isMouseDown (b : bool) (c : ModesHoverController)
    : ModesHoverController :=
  {| _contentWidget := _contentWidget c; _glyphWidget := _glyphWidget c;
     _isMouseDown := b; _hoverClicked := _hoverClicked c;
     _isHoverEnabled := _isHoverEnabled c; _isHoverSticky := _isHoverSticky c |}.

Definition set_hoverClicked (b : bool) (c : ModesHoverController)
    : ModesHoverController :=
  {| _contentWidget := _contentWidget c; _glyphWidget := _glyphWidget c;
     _isMouseDown := _isMouseDown c; _hoverClicked := b;
     _isHoverEnabled := _isHoverEnabled c; _isHoverSticky := _isHoverSticky c |}.

(** [_hookEvents] reads the two hover options. *)
Definition _hookEvents (enabled sticky : bool) (c : ModesHoverController)
    : ModesHoverController :=
  {| _contentWidget := _contentWidget c; _glyphWidget := _glyphWidget c;
     _isMouseDown := _isMouseDown c; _hoverClicked := _hoverClicked c;
     _isHoverEnabled := enabled; _isHoverSticky := sticky |}.

(** The constructor. *)
Definition constructor (enabled sticky : bool) : ModesHoverController :=
  _hookEvents enabled sticky
    {| _contentWidget := None; _glyphWidget := None;
       _isMouseDown := false; _hoverClicked := false;
       _isHoverEnabled := false; _isHoverSticky := false |}.

(** [this._contentWidget?.isColorPickerVisible()], [?.isVisible()] and
    [?.isVisibleFromKeyboard()] used as conditions: [undefined] is falsy. *)
Definition isColorPickerVisible (c : ModesHoverController) : bool :=
  match _contentWidget c with
  | Some w => content_colorPickerVisible w
  | None => false
  end.

Definition isHoverVisible (c : ModesHoverController) : bool :=
  match _contentWidget c with
  | Some w => content_visible w
  | None => false
  end.

Definition isVisibleFromKeyboard (c : ModesHoverController) : bool :=
  match _contentWidget c with
  | Some w => content_visibleFromKeyboard w
  | None => false
  end.

Definition isGlyphVisible (c : ModesHoverController) : bool :=
  match _glyphWidget c with
  | Some w => glyph_visible w
  | None => false
  end.

(** [dropDownVisible] is the static flag
    [InlineSuggestionHintsContentWidget.dropDownVisible], which the
    controller reads and never writes. *)
Definition _hideWidgets (dropDownVisible : bool) (c : ModesHoverController)
    : ModesHoverController :=
  if (_isMouseDown c && _hoverClicked c && isColorPickerVisible c)
     || dropDownVisible
  then c
  else
    let c := set_hoverClicked false c in
    let c := set_glyphWidget (MarginHoverWidget_hide <$> _glyphWidget c) c in
    let c := set_contentWidget (ContentHoverController_hide <$> _contentWidget c) c in
    c.

Definition is_widget (t : MouseTargetType) (id : string) (tg : IMouseTarget) : bool :=
  MouseTargetType_eqb (type tg) t && String.eqb (detail tg) id.

Definition _onEditorScrollChanged (dropDownVisible : bool)
    (scrollTopChanged scrollLeftChanged : bool) (c : ModesHoverController)
    : ModesHoverController :=
  if scrollTopChanged || scrollLeftChanged then _hideWidgets dropDownVisible c
  else c.

Definition _onEditorMouseDown (dropDownVisible : bool)
    (mouseEvent : IEditorMouseEvent) (c : ModesHoverController)
    : ModesHoverController :=
  let c := set_isMouseDown true c in
  let target := target mouseEvent in
  if is_widget CONTENT_WIDGET ContentHoverWidget_ID target then
    set_hoverClicked true c
  else if is_widget OVERLAY_WIDGET MarginHoverWidget_ID target then
    c
  else
    let c := if negb (MouseTargetType_eqb (type target) OVERLAY_WIDGET)
             then set_hoverClicked false c else c in
    _hideWidgets dropDownVisible c.

Definition _onEditorMouseUp (c : ModesHoverController) : ModesHoverController :=
  set_isMouseDown false c.

(** [relatedTargetInside] is the answer of
    [ContentHoverController.containsNode] for the event's related
    target. *)
Definition _onEditorMouseLeave (dropDownVisible : bool)
    (relatedTargetInside : bool) (c : ModesHoverController)
    : ModesHoverController :=
  if match _contentWidget c with Some _ => relatedTargetInside | None => false end
  then c
  else _hideWidgets dropDownVisible c.

Definition _getOrCreateContentWidget (c : ModesHoverController)
    : ContentHoverController * ModesHoverController :=
  match _contentWidget c with
  | Some w => (w, c)
  | None =>
      (ContentHoverController_new,
       set_contentWidget (Some ContentHoverController_new) c)
  end.

Section Handlers.

(** [ContentHoverController.maybeShowAt] decides from its hover
    participants, which are not among the sources: it is a parameter of
    the handlers.  It returns whether the widget takes the position and
    the widget's state afterwards. *)
Variable maybeShowAt :
  IEditorMouseEvent -> ContentHoverController -> bool * ContentHoverController.

Definition _onEditorMouseMove (dropDownVisible : bool)
    (mouseEvent : IEditorMouseEvent) (c : ModesHoverController)
    : ModesHoverController :=
  let target := target mouseEvent in
  if _isMouseDown c && _hoverClicked c then c
  else if _isHoverSticky c && is_widget CONTENT_WIDGET ContentHoverWidget_ID target
  then c
  else if _isHoverSticky c
          && negb (default false (selectionIsCollapsed mouseEvent))
  then c
  else if negb (_isHoverSticky c)
          && is_widget CONTENT_WIDGET ContentHoverWidget_ID target
          && isColorPickerVisible c
  then c
  else if _isHoverSticky c && is_widget OVERLAY_WIDGET MarginHoverWidget_ID target
  then c
  else if _isHoverSticky c && isVisibleFromKeyboard c then c
  else if negb (_isHoverEnabled c) then _hideWidgets dropDownVisible c
  else
    let '(contentWidget, c) := _getOrCreateContentWidget c in
    let '(shown, contentWidget) := maybeShowAt mouseEvent contentWidget in
    let c := set_contentWidget (Some contentWidget) c in
    if shown then
      set_glyphWidget (MarginHoverWidget_hide <$> _glyphWidget c) c
    else
      match type target, position target with
      | GUTTER_GLYPH_MARGIN, Some pos =>
          let c := set_contentWidget
                     (ContentHoverController_hide <$> _contentWidget c) c in
          set_glyphWidget
            (Some (MarginHoverWidget_startShowingAt (lineNumber pos))) c
      | _, _ => _hideWidgets dropDownVisible c
      end.

(** [IKeyboardEvent] with the answer of [keybindingService.softDispatch]
    for it; only the four modifier key codes matter to the controller. *)
Inductive KeyCode : Type := Ctrl | Alt | Meta | Shift | OtherKey (code : Z).

Record ResolutionResult : Type := {
  enterMultiChord : bool;
  commandId : option string
}.

Record IKeyboardEvent : Type := {
  keyCode : KeyCode;
  softDispatch : option ResolutionResult
}.

Definition is_modifier (k : KeyCode) : bool :=
  match k with
  | Ctrl | Alt | Meta | Shift => true
  | OtherKey _ => false
  end.

Definition _onKeyDown (dropDownVisible : bool) (hasModel : bool)
    (e : IKeyboardEvent) (c : ModesHoverController) : ModesHoverController :=
  if negb hasModel then c
  else
    let mightTriggerFocus :=
      match softDispatch e with
      | Some r =>
          enterMultiChord r
          || (match commandId r with
              | Some cmd => String.eqb cmd "editor.action.showOrFocusHover"
              | None => false
              end && isHoverVisible c)
      | None => false
      end in
    if negb (is_modifier (keyCode e)) && negb mightTriggerFocus
    then _hideWidgets dropDownVisible c
    else c.

Definition showContentHover (source : HoverStartSource)
    (c : ModesHoverController) : ModesHoverController :=
  let '(w, c) := _getOrCreateContentWidget c in
  set_contentWidget (Some (ContentHoverController_startShowingAtRange source w)) c.

(** The editor as the controller sees it: the controller itself and the
    dropdown flag of the inline-suggestion widget. *)
Record Editor : Type := {
  hover : ModesHoverController;
  dropDownVisible : bool
}.

Inductive EditorEvent : Type :=
| MouseDown (e : IEditorMouseEvent)
| MouseUp
| MouseMove (e : IEditorMouseEvent)
| MouseLeave (relatedTargetInside : bool)
| KeyDown (hasModel : bool) (e : IKeyboardEvent)
| ScrollChange (scrollTopChanged scrollLeftChanged : bool)
| ModelChange
| HoverOptionChange (enabled sticky : bool)
| ShowContentHover (source : HoverStartSource)
| DropDownChange (visible : bool).

(** The subscriptions of [_hookEvents]: mouse-down and mouse-up reach the
    controller only while the hover is enabled. *)
Definition dispatch (ev : EditorEvent) (ed : Editor) : Editor :=
  let c := hover ed in
  let dd := dropDownVisible ed in
  match ev with
  | MouseDown e =>
      {| hover := if _isHoverEnabled c then _onEditorMouseDown dd e c else c;
         dropDownVisible := dd |}
  | MouseUp =>
      {| hover := if _isHoverEnabled c then _onEditorMouseUp c else c;
         dropDownVisible := dd |}
  | MouseMove e =>
      {| hover := _onEditorMouseMove dd e c; dropDownVisible := dd |}
  | MouseLeave inside =>
      {| hover := _onEditorMouseLeave dd inside c; dropDownVisible := dd |}
  | KeyDown hasModel e =>
      {| hover := _onKeyDown dd hasModel e c; dropDownVisible := dd |}
  | ScrollChange topChanged leftChanged =>
      {| hover := _onEditorScrollChanged dd topChanged leftChanged c; dropDownVisible := dd |}
  | ModelChange =>
      {| hover := _hideWidgets dd c; dropDownVisible := dd |}
  | HoverOptionChange enabled sticky =>
      {| hover := _hookEvents enabled sticky c; dropDownVisible := dd |}
  | ShowContentHover source =>
      {| hover := showContentHover source c; dropDownVisible := dd |}
  | DropDownChange visible =>
      {| hover := c; dropDownVisible := visible |}
  end.

Definition run (evs : list EditorEvent) (ed : Editor) : Editor :=
  foldl (fun ed ev => dispatch ev ed) ed evs.

Definition initial (enabled sticky : bool) : Editor :=
  {| hover := constructor enabled sticky; dropDownVisible := false |}.

Definition reachable (ed : Editor) : Prop :=
  exists enabled sticky evs, ed = run evs (initial enabled sticky).

End Handlers.

(** A mouse target outside both hover widgets. *)
Definition outside_hover_widgets (tg : IMouseTarget) : bool :=
  negb (is_widget CONTENT_WIDGET ContentHoverWidget_ID tg)
  && negb (is_widget OVERLAY_WIDGET MarginHoverWidget_ID tg).

(** A target that is a position of the gutter's glyph margin. *)
Definition is_glyph_margin_position (tg : IMouseTarget) : bool :=
  match type tg, position tg with
  | GUTTER_GLYPH_MARGIN, Some _ => true
  | _, _ => false
  end.

Definition both_hidden (c : ModesHoverController) : Prop :=
  isHoverVisible c = false /\ isGlyphVisible c = false.

End Hover.


(** ** Interactive-session bridge (mainThreadInteractiveSession.ts) *)
Module Bridge.

Record Error : Type := { message : string }.

Record IInteractiveProgress : Type := { responsePart : string }.

(** A progress callback [(progress: IInteractiveProgress) => void] handed
    over by the session service.  The bridge only stores and calls it:
    it is known by its identity. *)
Record ProgressCallback : Type := { callback_id : nat }.

Record CancellationToken : Type := { isCancellationRequested : bool }.

(** Modelled from the spec: [URI] and [URI.revive] of
    [vs/base/common/uri] (not among the sources); [revive] maps
    [undefined] to [undefined]. *)
Record URI : Type := { uri_components : string }.

Definition URI_revive (components : option string) : option URI :=
  Build_URI <$> components.

(** Modelled from the spec: the DTOs of [extHost.protocol] (not among
    the sources), with the fields the bridge reads. *)
Record IInteractiveSessionDto : Type := {
  dto_id : Z;
  dto_requesterUsername : option string;
  dto_requesterAvatarIconUri : option string;
  dto_responderUsername : option string;
  dto_responderAvatarIconUri : option string
}.

Record IInteractiveRequestDto : Type := { dto_message : string }.

Record IInteractiveResponseDto : Type := {
  dto_followups : option (list string);
  dto_errorDetails : option string
}.

(** The calls the bridge makes on [this._proxy]. *)
Inductive ExtHostCall : Type :=
| prepareInteractiveSession_ (handle : Z) (initialState : option string)
    (token : CancellationToken)
| resolveInteractiveRequest_ (handle sessionId : Z) (context : string)
    (token : CancellationToken)
| provideInteractiveReply_ (handle sessionId : Z)
    (request : IInteractiveRequestDto) (token : CancellationToken)
| provideInitialSuggestions_ (handle : Z) (token : CancellationToken)
| provideSlashCommands_ (handle sessionId : Z) (token : CancellationToken)
| releaseSession_ (sessionId : Z).

(** What [_interactiveSessionService.registerProvider] returns: the
    disposable that takes the provider [id] out of the service again. *)
Record IDisposable : Type := { unregisters : string }.

(** Everything the bridge does to its collaborators, in order. *)
Inductive Effect : Type :=
| ProxyCall (call : ExtHostCall)
| RegisterProvider (id : string) (progressiveRenderingEnabled : bool)
    (handle : Z)
| AcceptNewSessionState (sessionId : Z) (state : string)
| AddInteractiveRequest (context : string)
| Disposed (d : IDisposable)
| ProgressReported (callback : ProgressCallback) (progress : IInteractiveProgress).

(** An entry of [interactiveSessionContribService.registeredProviders]. *)
Record IInteractiveSessionProviderContribution : Type := {
  contribution_id : string;
  extensionIcon : option URI
}.

(** The fields of [MainThreadInteractiveSession], the contribution list
    of the injected service, and the effects performed so far (oldest
    first). *)
Record MainThreadInteractiveSession : Type := {
  _inputRegistrations : gmap Z IDisposable;
  _registrations : gmap Z IDisposable;
  _activeRequestProgressCallbacks : gmap string ProgressCallback;
  registeredProviders : list IInteractiveSessionProviderContribution;
  effects : list Effect
}.

(** *** Synchronous code: state and exceptions *)

Inductive Result (A : Type) : Type :=
| Ok (a : A)
| Throw (e : Error).
Arguments Ok {A} a.
Arguments Throw {A} e.

Definition M (A : Type) : Type :=
  MainThreadInteractiveSession -> Result A * MainThreadInteractiveSession.

Definition ret {A} (a : A) : M A := fun st => (Ok a, st).

Definition throw {A} (e : Error) : M A := fun st => (Throw e, st).

Definition bind {A B} (m : M A) (k : A -> M B) : M B :=
  fun st =>
    match m st with
    | (Ok a, st') => k a st'
    | (Throw e, st') => (Throw e, st')
    end.

Declare Scope bridge_scope.
Delimit Scope bridge_scope with bridge.
Notation "x <- m ;; k" := (bind m (fun x => k))
  (at level 100, m at next level, right associativity) : bridge_scope.
Notation "m ;;; k" := (bind m (fun _ => k))
  (at level 100, right associativity) : bridge_scope.
Local Open Scope bridge_scope.

(** [try { body } finally { cleanup }]. *)
Definition try_finally {A} (body : M A) (cleanup : M unit) : M A :=
  fun st =>
    let '(r, st') := body st in
    match cleanup st' with
    | (Ok _, st'') => (r, st'')
    | (Throw e, st'') => (Throw e, st'')
    end.

(** The bridge after one more effect. *)
Definition log (e : Effect) (st : MainThreadInteractiveSession)
    : MainThreadInteractiveSession :=
  {| _inputRegistrations := _inputRegistrations st;
     _registrations := _registrations st;
     _activeRequestProgressCallbacks := _activeRequestProgressCallbacks st;
     registeredProviders := registeredProviders st;
     effects := effects st ++ [e] |}.

Definition perform (e : Effect) : M unit :=
  fun st => (Ok tt, log e st).

(** The bridge after an update of the callback map. *)
Definition update_callbacks
    (f : gmap string ProgressCallback -> gmap string ProgressCallback)
    (st : MainThreadInteractiveSession) : MainThreadInteractiveSession :=
  {| _inputRegistrations := _inputRegistrations st;
     _registrations := _registrations st;
     _activeRequestProgressCallbacks := f (_activeRequestProgressCallbacks st);
     registeredProviders := registeredProviders st;
     effects := effects st |}.

Definition with_callbacks
    (f : gmap string ProgressCallback -> gmap string ProgressCallback) : M unit :=
  fun st => (Ok tt, update_callbacks f st).

Definition with_registrations
    (f : gmap Z IDisposable -> gmap Z IDisposable) : M unit :=
  fun st =>
    (Ok tt,
     {| _inputRegistrations := _inputRegistrations st;
        _registrations := f (_registrations st);
        _activeRequestProgressCallbacks := _activeRequestProgressCallbacks st;
        registeredProviders := registeredProviders st;
        effects := effects st |}).

Definition with_inputRegistrations
    (f : gmap Z IDisposable -> gmap Z IDisposable) : M unit :=
  fun st =>
    (Ok tt,
     {| _inputRegistrations := f (_inputRegistrations st);
        _registrations := _registrations st;
        _activeRequestProgressCallbacks := _activeRequestProgressCallbacks st;
        registeredProviders := registeredProviders st;
        effects := effects st |}).

Definition read {A} (f : MainThreadInteractiveSession -> A) : M A :=
  fun st => (Ok (f st), st).

(** *** Asynchronous code

    Every [async] function of the bridge awaits one remote call.  It
    runs synchronously up to the [await], where it issues the call and
    suspends; when the call's promise settles, the rest of the body
    runs, from the state the bridge is in by then. *)
Inductive Outcome (R : Type) : Type :=
| Resolved (r : R)
| Rejected (e : Error).
Arguments Resolved {R} r.
Arguments Rejected {R} e.

Record Awaiting (R A : Type) : Type := {
  awaited : ExtHostCall;
  resume : Outcome R -> M A
}.
Arguments awaited {R A} _.
Arguments resume {R A} _ _.

Definition await {R A} (call : ExtHostCall) (k : Outcome R -> M A)
    : M (Awaiting R A) :=
  perform (ProxyCall call) ;;;
  ret {| awaited := call; resume := k |}.

(** The value of an [await] expression: a rejection is thrown. *)
Definition settled {R} (o : Outcome R) : M R :=
  match o with
  | Resolved r => ret r
  | Rejected e => throw e
  end.

(** *** Sessions, requests and responses (interactiveSessionService.ts) *)

Record IInteractiveSession : Type := {
  id : Z;
  requesterUsername : string;
  requesterAvatarIconUri : option URI;
  responderUsername : string;
  responderAvatarIconUri : option URI;
  dispose : option (M unit)
}.

Record IInteractiveRequest : Type := {
  session : IInteractiveSession;
  request_message : string
}.

(** [{ session, ...dto }]: the session and the properties of the DTO. *)
Record IInteractiveResponse : Type := {
  response_session : IInteractiveSession;
  response_dto : option IInteractiveResponseDto
}.

(** *** Modelled collaborators *)

(** Modelled from the spec: [DisposableMap] of [vs/base/common/lifecycle]
    (not among the sources).  The spec has [unregisterProvider]
    "dispose and remove the registration; idempotent if already
    removed"; [set] disposes the value it replaces. *)
Definition DisposableMap_set (handle : Z) (value : IDisposable) : M unit :=
  old <- read (fun st => _registrations st !! handle) ;;
  match old with
  | Some d => perform (Disposed d)
  | None => ret tt
  end ;;;
  with_registrations (insert handle value).

(** Modelled from the spec: [DisposableMap.deleteAndDispose], "disposes
    and removes the registration; idempotent if already removed". *)
Definition DisposableMap_deleteAndDispose (handle : Z) : M unit :=
  old <- read (fun st => _registrations st !! handle) ;;
  match old with
  | Some d => perform (Disposed d)
  | None => ret tt
  end ;;;
  with_registrations (delete handle).

(** Modelled from the spec: [DisposableMap.dispose] disposes every value
    it holds; the order is that of the list it is given. *)
Definition DisposableMap_dispose_all (values : list IDisposable) : M unit :=
  foldr (fun d rest => perform (Disposed d) ;;; rest) (ret tt) values.

(** *** The provider installed by a registration *)

(** The template literal [`${handle}_${sessionId}`] for integers. *)
Definition request_key (handle sessionId : Z) : string :=
  pretty handle +:+ "_" +:+ pretty sessionId.

Definition prepareSession_resume
    (registration : IInteractiveSessionProviderContribution)
    (answer : Outcome (option IInteractiveSessionDto))
    : M (option IInteractiveSession) :=
  session <- settled answer ;;
  match session with
  | None => ret None
  | Some session =>
      let responderAvatarIconUri :=
        match dto_responderAvatarIconUri session with
        | Some u => URI_revive (Some u)
        | None => extensionIcon registration
        end in
      ret (Some
        {| id := dto_id session;
           requesterUsername := default "Username" (dto_requesterUsername session);
           requesterAvatarIconUri := URI_revive (dto_requesterAvatarIconUri session);
           responderUsername := default "Response" (dto_responderUsername session);
           responderAvatarIconUri := responderAvatarIconUri;
           dispose := Some (perform (ProxyCall (releaseSession_ (dto_id session)))) |})
  end.

Definition prepareSession (handle : Z)
    (registration : IInteractiveSessionProviderContribution)
    (initialState : option string) (token : CancellationToken)
    : M (Awaiting (option IInteractiveSessionDto) (option IInteractiveSession)) :=
  await (prepareInteractiveSession_ handle initialState token)
        (prepareSession_resume registration).

Definition resolveRequest (handle : Z) (session : IInteractiveSession)
    (context : string) (token : CancellationToken)
    : M (Awaiting IInteractiveRequestDto IInteractiveRequest) :=
  await (resolveInteractiveRequest_ handle (id session) context token)
        (fun answer =>
           dto <- settled answer ;;
           ret {| session := session; request_message := dto_message dto |}).

(** The rest of [provideReply] after its [await], inside the [try]
    whose [finally] deletes the key. *)
Definition provideReply_resume (request : IInteractiveRequest) (key : string)
    (answer : Outcome (option IInteractiveResponseDto))
    : M IInteractiveResponse :=
  try_finally
    (dto <- settled answer ;;
     ret {| response_session := session request; response_dto := dto |})
    (with_callbacks (delete key)).

Definition provideReply (handle : Z) (request : IInteractiveRequest)
    (progress : ProgressCallback) (token : CancellationToken)
    : M (Awaiting (option IInteractiveResponseDto) IInteractiveResponse) :=
  let key := request_key handle (id (session request)) in
  with_callbacks (insert key progress) ;;;
  let requestDto := {| dto_message := request_message request |} in
  await (provideInteractiveReply_ handle (id (session request)) requestDto token)
        (provideReply_resume request key).

Definition provideSuggestions (handle : Z) (token : CancellationToken)
    : M (Awaiting (option (list string)) (option (list string))) :=
  await (provideInitialSuggestions_ handle token) settled.

Definition provideSlashCommands (handle : Z) (session : IInteractiveSession)
    (token : CancellationToken)
    : M (Awaiting (list string) (list string)) :=
  await (provideSlashCommands_ handle (id session) token) settled.

(** *** The methods of the bridge *)

Definition bridge_dispose : M unit :=
  inputs <- read (fun st => map_to_list (_inputRegistrations st)) ;;
  DisposableMap_dispose_all (snd <$> inputs) ;;;
  with_inputRegistrations (fun _ => ∅) ;;;
  regs <- read (fun st => map_to_list (_registrations st)) ;;
  DisposableMap_dispose_all (snd <$> regs) ;;;
  with_registrations (fun _ => ∅).

Definition registerInteractiveSessionProvider (handle : Z) (id : string)
    (implementsProgress : bool) : M unit :=
  registration <-
    read (fun st =>
      find (fun staticProvider => String.eqb (contribution_id staticProvider) id)
           (registeredProviders st)) ;;
  match registration with
  | None =>
      throw {| message := "Provider " +:+ id
                          +:+ " must be declared in the package.json." |}
  | Some registration =>
      perform (RegisterProvider id implementsProgress handle) ;;;
      let unreg := {| unregisters := id |} in
      DisposableMap_set handle unreg
  end.

Definition acceptInteractiveResponseProgress (handle sessionId : Z)
    (progress : IInteractiveProgress) : M unit :=
  let key := request_key handle sessionId in
  callback <- read (fun st => _activeRequestProgressCallbacks st !! key) ;;
  match callback with
  | Some callback => perform (ProgressReported callback progress)
  | None => ret tt
  end.

Definition acceptInteractiveSessionState (sessionId : Z) (state : string)
    : M unit :=
  perform (AcceptNewSessionState sessionId state).

Definition addInteractiveSessionRequest (context : string) : M unit :=
  perform (AddInteractiveRequest context).

Definition unregisterInteractiveSessionProvider (handle : Z) : M unit :=
  DisposableMap_deleteAndDispose handle.

(** The bridge right after its construction. *)
Definition constructor
    (contributions : list IInteractiveSessionProviderContribution)
    : MainThreadInteractiveSession :=
  {| _inputRegistrations := ∅;
     _registrations := ∅;
     _activeRequestProgressCallbacks := ∅;
     registeredProviders := contributions;
     effects := [] |}.

(** The provider object that [$registerInteractiveSessionProvider] hands
    to the session service: its callbacks close over [handle] and the
    contribution found for [id]. *)
Record IInteractiveProvider : Type := {
  provider_id : string;
  progressiveRenderingEnabled : bool;
  provider_prepareSession :
    option string -> CancellationToken ->
    M (Awaiting (option IInteractiveSessionDto) (option IInteractiveSession));
  provider_resolveRequest :
    IInteractiveSession -> string -> CancellationToken ->
    M (Awaiting IInteractiveRequestDto IInteractiveRequest);
  provider_provideReply :
    IInteractiveRequest -> ProgressCallback -> CancellationToken ->
    M (Awaiting (option IInteractiveResponseDto) IInteractiveResponse);
  provider_provideSuggestions :
    CancellationToken ->
    M (Awaiting (option (list string)) (option (list string)));
  provider_provideSlashCommands :
    IInteractiveSession -> CancellationToken ->
    M (Awaiting (list string) (list string))
}.

Definition provider (handle : Z) (id : string) (implementsProgress : bool)
    (registration : IInteractiveSessionProviderContribution)
    : IInteractiveProvider :=
  {| provider_id := id;
     progressiveRenderingEnabled := implementsProgress;
     provider_prepareSession := prepareSession handle registration;
     provider_resolveRequest := resolveRequest handle;
     provider_provideReply := provideReply handle;
     provider_provideSuggestions := provideSuggestions handle;
     provider_provideSlashCommands := provideSlashCommands handle |}.

(** *** The bridge on the event loop

    Handlers run to completion, one after the other.  A [provideReply]
    call that has reached its [await] stays in flight until its promise
    settles; other handlers run in between. *)
Record InFlightReply : Type := {
  reply_handle : Z;
  reply_request : IInteractiveRequest;
  reply_progress : ProgressCallback;
  reply_awaiting : Awaiting (option IInteractiveResponseDto) IInteractiveResponse
}.

Definition reply_session (r : InFlightReply) : Z :=
  id (session (reply_request r)).

Record System : Type := {
  bridge : MainThreadInteractiveSession;
  inflight : list InFlightReply
}.

Inductive Event : Type :=
| Register (handle : Z) (id : string) (implementsProgress : bool)
| Unregister (handle : Z)
| AcceptProgress (handle sessionId : Z) (progress : IInteractiveProgress)
| AcceptSessionState (sessionId : Z) (state : string)
| AddRequest (context : string)
| PrepareSession (handle : Z)
    (registration : IInteractiveSessionProviderContribution)
    (initialState : option string) (token : CancellationToken)
| ReleaseSession (sessionId : Z)
| ResolveRequest (handle : Z) (session : IInteractiveSession)
    (context : string) (token : CancellationToken)
| ProvideReply (handle : Z) (request : IInteractiveRequest)
    (progress : ProgressCallback) (token : CancellationToken)
| SettleReply (n : nat) (answer : Outcome (option IInteractiveResponseDto))
| ProvideSuggestions (handle : Z) (token : CancellationToken)
| ProvideSlashCommands (handle : Z) (session : IInteractiveSession)
    (token : CancellationToken)
| Dispose.

(** Run a handler on the bridge; what it returns or throws goes to its
    caller. *)
Definition exec {A} (m : M A) (sys : System) : System :=
  {| bridge := snd (m (bridge sys)); inflight := inflight sys |}.

Definition step (ev : Event) (sys : System) : System :=
  match ev with
  | Register handle id implementsProgress =>
      exec (registerInteractiveSessionProvider handle id implementsProgress) sys
  | Unregister handle =>
      exec (unregisterInteractiveSessionProvider handle) sys
  | AcceptProgress handle sessionId progress =>
      exec (acceptInteractiveResponseProgress handle sessionId progress) sys
  | AcceptSessionState sessionId state =>
      exec (acceptInteractiveSessionState sessionId state) sys
  | AddRequest context =>
      exec (addInteractiveSessionRequest context) sys
  | PrepareSession handle registration initialState token =>
      exec (prepareSession handle registration initialState token) sys
  | ReleaseSession sessionId =>
      exec (perform (ProxyCall (releaseSession_ sessionId))) sys
  | ResolveRequest handle session context token =>
      exec (resolveRequest handle session context token) sys
  | ProvideReply handle request progress token =>
      match provideReply handle request progress token (bridge sys) with
      | (Ok awaiting, st) =>
          {| bridge := st;
             inflight := inflight sys ++
               [{| reply_handle := handle; reply_request := request;
                   reply_progress := progress; reply_awaiting := awaiting |}] |}
      | (Throw _, st) => {| bridge := st; inflight := inflight sys |}
      end
  | SettleReply n answer =>
      match inflight sys !! n with
      | Some r =>
          {| bridge := snd (resume (reply_awaiting r) answer (bridge sys));
             inflight := delete n (inflight sys) |}
      | None => sys
      end
  | ProvideSuggestions handle token =>
      exec (provideSuggestions handle token) sys
  | ProvideSlashCommands handle session token =>
      exec (provideSlashCommands handle session token) sys
  | Dispose => exec bridge_dispose sys
  end.

Definition run (evs : list Event) (sys : System) : System :=
  foldl (fun sys ev => step ev sys) sys evs.

Definition initial
    (contributions : list IInteractiveSessionProviderContribution) : System :=
  {| bridge := constructor contributions; inflight := [] |}.

Definition reachable (sys : System) : Prop :=
  exists contributions evs, sys = run evs (initial contributions).

(** Whether [r] is a call for the pair [(handle, sessionId)]. *)
Definition reply_for (handle sessionId : Z) (r : InFlightReply) : bool :=
  bool_decide (reply_handle r = handle) && bool_decide (reply_session r = sessionId).

(** Whether [ev] starts or settles a [provideReply] call for the pair. *)
Definition concerns (handle sessionId : Z) (sys : System) (ev : Event) : bool :=
  match ev with
  | ProvideReply h request _ _ =>
      bool_decide (h = handle) && bool_decide (id (session request) = sessionId)
  | SettleReply n _ =>
      match inflight sys !! n with
      | Some r => reply_for handle sessionId r
      | None => false
      end
  | _ => false
  end.

(** No event of [evs], run from [sys], starts or settles a call for the
    pair. *)
Fixpoint undisturbed (handle sessionId : Z) (evs : list Event) (sys : System)
    : bool :=
  match evs with
  | [] => true
  | ev :: evs =>
      negb (concerns handle sessionId sys ev)
      && undisturbed handle sessionId evs (step ev sys)
  end.

End Bridge.


(** ** Screencast keyboard overlay (developerActions.ts) *)
Module ScreencastKeyboard.

Inductive SpanClass : Type := title | key.

(** A child of the keyboard marker: [$('span.title', {}, text)] or
    [$('span.key', {}, text)]. *)
Record Span : Type := { span_class : SpanClass; textContent : string }.

(** The element [composing] refers to: the child of the marker at an
    index, or an element that a clearing of the marker has detached. *)
Inductive Composing : Type :=
| Attached (index : nat)
| Detached.

(** The variables of [run] that the keyboard listeners share: the
    children of [keyboardMarker], [length], [composing], and whether
    [clearKeyboardScheduler] is armed. *)
Record Overlay : Type := {
  children : list Span;
  length : nat;
  composing : option Composing;
  scheduled : bool
}.

(** Modelled from the spec: [RunOnceScheduler] of [vs/base/common/async]
    (not among the sources): [schedule] arms the timer, again if it is
    armed already, [cancel] disarms it, and the runner runs when the
    timer fires. *)
Definition schedule (o : Overlay) : Overlay :=
  {| children := children o; length := length o;
     composing := composing o; scheduled := true |}.

Definition cancel (o : Overlay) : Overlay :=
  {| children := children o; length := length o;
     composing := composing o; scheduled := false |}.

(** The runner of [clearKeyboardScheduler]. *)
Definition clearKeyboard (o : Overlay) : Overlay :=
  {| children := []; length := 0; composing := None; scheduled := false |}.

(** [keyboardMarker.innerText = ''; length = 0]: the children go, the
    element [composing] refers to stays referenced. *)
Definition clearMarker (o : Overlay) : Overlay :=
  {| children := [];
     length := 0;
     composing := match composing o with
                  | Some _ => Some Detached
                  | None => None
                  end;
     scheduled := scheduled o |}.

Definition appendSpan (sp : Span) (o : Overlay) : Overlay :=
  {| children := children o ++ [sp]; length := length o;
     composing := composing o; scheduled := scheduled o |}.

(** The [compositionupdate] listener; [data] is [e.data]. *)
Definition onCompositionUpdate (data : string) (o : Overlay) : Overlay :=
  let o :=
    if String.eqb data "" then o
    else
      match composing o with
      | None =>
          {| children := children o ++ [{| span_class := key; textContent := data |}];
             length := length o;
             composing := Some (Attached (List.length (children o)));
             scheduled := scheduled o |}
      | Some (Attached i) =>
          {| children :=
               alter (fun sp => {| span_class := span_class sp; textContent := data |})
                     i (children o);
             length := length o;
             composing := composing o;
             scheduled := scheduled o |}
      | Some Detached => o
      end in
  schedule o.

(** The [compositionend] listener. *)
Definition onCompositionEnd (o : Overlay) : Overlay :=
  {| children := children o; length := length o;
     composing := None; scheduled := scheduled o |}.

Inductive KeyCode : Type :=
| Backspace | Escape | UpArrow | DownArrow | LeftArrow | RightArrow
| OtherKey (code : Z).

Definition clears_on (k : KeyCode) : bool :=
  match k with
  | OtherKey _ => false
  | _ => true
  end.

Inductive Format : Type :=
| keys | command | commandWithGroup | commandAndKeys | commandWithGroupAndKeys.

(** The three settings the [keydown] listener reads anew at every
    event; [format] is [None] for a value outside the enumeration. *)
Record Settings : Type := {
  hideSingleEditorCursorMoves : bool;
  onlyKeyboardShortcuts : bool;
  format : option Format
}.

Record Command : Type := {
  command_title : string;
  command_category : option string
}.

(** A [keydown] event with what the services answer for it:
    [commandId] is [softDispatch(...)?.commandId], [label] is
    [resolveKeyboardEvent(event).getLabel()], [menuCommand] is
    [MenuRegistry.getCommand(commandId)] and [lookupLabels] are the
    labels of [lookupKeybindings(commandId)]. *)
Record KeyDown : Type := {
  e_key : string;
  e_code : string;
  ctrlKey : bool;
  altKey : bool;
  metaKey : bool;
  shiftKey : bool;
  keyCode : KeyCode;
  commandId : option string;
  label : option string;
  menuCommand : option Command;
  lookupLabels : list (option string)
}.

(** Truthiness of a string, and of an optional one. *)
Definition truthy (s : string) : bool := negb (String.eqb s "").

Definition truthy_opt (s : option string) : bool :=
  match s with
  | Some s => truthy s
  | None => false
  end.

(** [s.includes(part)]. *)
Definition includes (part s : string) : bool :=
  match String.index 0 part s with
  | Some _ => true
  | None => false
  end.

(** [s.endsWith(suffix)]. *)
Definition endsWith (suffix s : string) : bool :=
  String.prefix (String.rev suffix) (String.rev s).

(** [s.replace(pattern, replacement)] for a text pattern: the first
    occurrence is replaced. *)
Fixpoint replace (pattern replacement s : string) : string :=
  if String.prefix pattern s
  then replacement +:+ String.substring (String.length pattern)
                         (String.length s - String.length pattern) s
  else match s with
       | EmptyString => EmptyString
       | String c rest => String c (replace pattern replacement rest)
       end.

Definition fixArrows (keyLabel : string) : string :=
  replace "RightArrow" "→"
    (replace "LeftArrow" "←"
       (replace "DownArrow" "↓"
          (replace "UpArrow" "↑" keyLabel))).

Definition is_cursor_move (id : string) : bool :=
  existsb (String.eqb id) ["cursorLeft"; "cursorRight"; "cursorUp"; "cursorDown"].

Definition format_is (f : Format) (g : option Format) : bool :=
  match g, f with
  | Some keys, keys | Some command, command
  | Some commandWithGroup, commandWithGroup
  | Some commandAndKeys, commandAndKeys
  | Some commandWithGroupAndKeys, commandWithGroupAndKeys => true
  | _, _ => false
  end.

(** [titleLabel] and [keyLabel] as the listener computes them before it
    appends anything. *)
Definition labels (cfg : Settings) (e : KeyDown) : string * option string :=
  let found := if truthy_opt (commandId e) then menuCommand e else None in
  match found with
  | None => (EmptyString, label e)
  | Some cmd =>
      let titleLabel := command_title cmd in
      let titleLabel :=
        if (format_is commandWithGroup (format cfg)
            || format_is commandWithGroupAndKeys (format cfg))
           && truthy_opt (command_category cmd)
        then default EmptyString (command_category cmd)
             +:+ ": " +:+ titleLabel +:+ " "
        else titleLabel in
      let keyLabel :=
        if truthy_opt (commandId e) then
          let keybindings :=
            List.filter
              (fun k => match k with
                        | Some l => endsWith (default EmptyString (label e)) l
                        | None => false
                        end)
              (lookupLabels e) in
          match last keybindings with
          | Some l => l
          | None => label e
          end
        else label e in
      (titleLabel, keyLabel)
  end.

(** The [keydown] listener. *)
Definition onKeyDown (cfg : Settings) (e : KeyDown) (o : Overlay) : Overlay :=
  if String.eqb (e_key e) "Process" then
    if negb (includes "Key" (e_code e))
    then cancel (onCompositionEnd o)
    else o
  else if truthy_opt (commandId e) && hideSingleEditorCursorMoves cfg
          && is_cursor_move (default EmptyString (commandId e))
  then o
  else
    let o :=
      if truthy_opt (commandId e) || negb (onlyKeyboardShortcuts cfg) then
        let o :=
          if ctrlKey e || altKey e || metaKey e || shiftKey e
             || bool_decide (20 < length o)%nat
             || clears_on (keyCode e)
          then clearMarker o else o in
        let '(titleLabel, keyLabel) := labels cfg e in
        let o :=
          if negb (format_is keys (format cfg)) && truthy titleLabel
          then appendSpan {| span_class := title;
                             textContent := titleLabel +:+ " " |} o
          else o in
        let o :=
          if negb (onlyKeyboardShortcuts cfg) || negb (truthy titleLabel)
             || (truthy_opt (commandId e)
                 && (format_is keys (format cfg)
                     || format_is commandAndKeys (format cfg)
                     || format_is commandWithGroupAndKeys (format cfg)))
          then appendSpan {| span_class := key;
                             textContent := default EmptyString (fixArrows <$> keyLabel) |} o
          else o in
        {| children := children o; length := S (length o);
           composing := composing o; scheduled := scheduled o |}
      else o in
    schedule o.

(** What happens to the overlay while screencast mode is on. *)
Inductive Event : Type :=
| KeyDownEvent (cfg : Settings) (e : KeyDown)
| CompositionUpdate (data : string)
| CompositionEnd
| TimerFires.

Definition handle (ev : Event) (o : Overlay) : Overlay :=
  match ev with
  | KeyDownEvent cfg e => onKeyDown cfg e o
  | CompositionUpdate data => onCompositionUpdate data o
  | CompositionEnd => onCompositionEnd o
  | TimerFires => if scheduled o then clearKeyboard o else o
  end.

Definition run (evs : list Event) (o : Overlay) : Overlay :=
  foldl (fun o ev => handle ev o) o evs.

(** The overlay when screencast mode is switched on. *)
Definition initial : Overlay :=
  {| children := []; length := 0; composing := None; scheduled := false |}.

End ScreencastKeyboard.


(** ** Notebook viewport warm-up (viewportWarmup.ts) *)
Module ViewportWarmup.

Inductive CellEditState : Type := Preview | Editing.

(** [IOrderedMimeType], with the fields the contribution reads. *)
Record IOrderedMimeType : Type := {
  mimeType : string;
  rendererId : string;
  isTrusted : bool
}.

(** [INotebookRendererInfo], known by its id. *)
Record INotebookRendererInfo : Type := { renderer_id : string }.

(** An output view model, with the answer of its
    [resolveMimeTypes(textModel, undefined)]: the mime types and the
    index of the picked one. *)
Record ICellOutputViewModel : Type := {
  output_id : nat;
  resolveMimeTypes : list IOrderedMimeType * Z
}.

Record CodeCellViewModel : Type := {
  code_handle : nat;
  isOutputCollapsed : bool;
  outputsViewModels : list ICellOutputViewModel
}.

Record MarkupCellViewModel : Type := {
  markup_handle : nat;
  getEditState : CellEditState;
  isInputCollapsed : bool
}.

(** A cell view model with its [cellKind]. *)
Inductive ICellViewModel : Type :=
| Markup (cell : MarkupCellViewModel)
| Code (cell : CodeCellViewModel).

(** [IInsetRenderOutput] of type [RenderOutputType.Extension]. *)
Record IInsetRenderOutput : Type := {
  renderer : INotebookRendererInfo;
  source : ICellOutputViewModel;
  inset_mimeType : string
}.

(** The calls the contribution makes on the notebook editor. *)
Inductive Effect : Type :=
| createMarkupPreview (cell : MarkupCellViewModel)
| createOutput (cell : CodeCellViewModel) (output : IInsetRenderOutput)
    (offset : Z).

(** The notebook editor as the contribution sees it: [cells] is [None]
    when the editor has no model, and [getRendererInfo] is the answer
    of the notebook service. *)
Record NotebookEditor : Type := {
  isDisposed : bool;
  cells : option (list ICellViewModel);
  getRendererInfo : string -> option INotebookRendererInfo
}.

Definition hasModel (ed : NotebookEditor) : bool :=
  match cells ed with
  | Some _ => true
  | None => false
  end.

Definition getLength (ed : NotebookEditor) : nat :=
  match cells ed with
  | Some cs => List.length cs
  | None => 0
  end.

Definition cellAt (ed : NotebookEditor) (index : nat) : option ICellViewModel :=
  match cells ed with
  | Some cs => cs !! index
  | None => None
  end.

(** [mimeTypes[pick]]: [undefined] outside the array. *)
Definition at_index {A} (l : list A) (pick : Z) : option A :=
  if bool_decide (0 <= pick) then l !! Z.to_nat pick else None.

(** The loop of [_renderCell]: [continue] goes on with the rest of the
    outputs, [return] ends the loop. *)
Fixpoint renderOutputs (ed : NotebookEditor) (viewCell : CodeCellViewModel)
    (outputs : list ICellOutputViewModel) : list Effect :=
  match outputs with
  | [] => []
  | output :: rest =>
      let '(mimeTypes, pick) := resolveMimeTypes output in
      if negb (existsb isTrusted mimeTypes)
         || bool_decide (List.length mimeTypes = 0%nat)
      then renderOutputs ed viewCell rest
      else
        match at_index mimeTypes pick with
        | None => []
        | Some pickedMimeTypeRenderer =>
            if negb (hasModel ed) then []
            else
              match getRendererInfo ed (rendererId pickedMimeTypeRenderer) with
              | None => []
              | Some renderer =>
                  createOutput viewCell
                    {| renderer := renderer; source := output;
                       inset_mimeType := mimeType pickedMimeTypeRenderer |}
                    0
                  :: renderOutputs ed viewCell rest
              end
        end
  end.

Definition _renderCell (ed : NotebookEditor) (viewCell : CodeCellViewModel)
    : list Effect :=
  if isOutputCollapsed viewCell then []
  else renderOutputs ed viewCell (outputsViewModels viewCell).

Definition is_markup_preview (m : MarkupCellViewModel) : bool :=
  match getEditState m with
  | Preview => negb (isInputCollapsed m)
  | Editing => false
  end.

(** The body of the loop of [_warmupViewportNow] for one cell. *)
Definition warmupViewportCell (ed : NotebookEditor)
    (cell : option ICellViewModel) : list Effect :=
  match cell with
  | Some (Markup m) => if is_markup_preview m then [createMarkupPreview m] else []
  | Some (Code c) => _renderCell ed c
  | None => []
  end.

(** [visibleIndexes] is
    [cellRangesToIndexes(getVisibleRangesPlusViewportAboveAndBelow())]. *)
Definition _warmupViewportNow (ed : NotebookEditor) (visibleIndexes : list nat)
    : list Effect :=
  if isDisposed ed then []
  else if negb (hasModel ed) then []
  else flat_map (fun index => warmupViewportCell ed (cellAt ed index))
                visibleIndexes.

(** The body of the loop of [_warmupDocumentNow] for one cell: the
    branch of a markup preview is empty. *)
Definition warmupDocumentCell (ed : NotebookEditor)
    (cell : option ICellViewModel) : list Effect :=
  match cell with
  | Some (Markup m) => []
  | Some (Code c) => _renderCell ed c
  | None => []
  end.

Definition _warmupDocumentNow (ed : NotebookEditor) : list Effect :=
  if hasModel ed
  then flat_map (fun i => warmupDocumentCell ed (cellAt ed i))
                (seq 0 (getLength ed))
  else [].

Definition is_createOutput (e : Effect) : bool :=
  match e with
  | createOutput _ _ _ => true
  | createMarkupPreview _ => false
  end.

End ViewportWarmup.


(** * Properties *)

(** ** Screencast overlay settings *)
Module ScreencastFacts.
Import JsNumber Screencast.

Lemma Qle_bool_false (p q : Q) : Qle_bool p q = false -> (q <= p)%Q.
Proof.
  intros Hb. apply Qlt_le_weak, Qnot_le_lt.
  intros Hle. apply Qle_bool_iff in Hle. congruence.
Qed.


(** The number that [clamp] receives from [value || fallback]. *)
Lemma toNumber_or_else (v : JsValue.t) (d : Z) :
  JsValue.toNumber (or_else v d)
  = if JsValue.truthy v then JsValue.toNumber v else of_Z d.
Proof. unfold or_else. destruct (JsValue.truthy v); reflexivity. Qed.

Lemma or_else_not_NaN (v : JsValue.t) (d : Z) :
  converts v -> JsValue.toNumber (or_else v d) <> NaN.
Proof.
  intros [Hf | Hn]; rewrite toNumber_or_else.
  - rewrite Hf. discriminate.
  - destruct (JsValue.truthy v); [exact Hn | discriminate].
Qed.

(** Clamping any number but [NaN] lands between the bounds. *)
Lemma clamp_within (x : t) (lo hi : Z) :
  lo <= hi -> x <> NaN ->
  within lo hi (clamp x (of_Z lo) (of_Z hi)).
Proof.
  intros Hlh Hx.
  assert (Hq : (inject_Z lo <= inject_Z hi)%Q) by (rewrite <- Zle_Qle; exact Hlh).
  assert (Hb : Qle_bool (inject_Z lo) (inject_Z hi) = true)
    by (apply Qle_bool_iff; exact Hq).
  destruct x as [| |q|]; unfold clamp, of_Z; simpl.
  - congruence.
  - rewrite Hb. simpl. split; [apply Qle_refl | exact Hq].
  - destruct (Qle_bool q (inject_Z lo)) eqn:E1; simpl.
    + rewrite Hb. simpl. split; [apply Qle_refl | exact Hq].
    + destruct (Qle_bool q (inject_Z hi)) eqn:E2; simpl.
      * split; [apply Qle_bool_false; exact E1 | apply Qle_bool_iff; exact E2].
      * split; [exact Hq | apply Qle_refl].
  - split; [exact Hq | apply Qle_refl].
Qed.



(** A number strictly between the bounds, and not zero, is used as it
    is. *)
Lemma clamp_or_else_inside (q : Q) (d lo hi : Z) :
  (inject_Z lo < q)%Q -> (q < inject_Z hi)%Q -> ~ (q == 0)%Q ->
  clamp (JsValue.toNumber (or_else (JsValue.Number (Finite q)) d))
        (of_Z lo) (of_Z hi)
  = Finite q.
Proof.
  intros Hl Hh Hz. unfold or_else, JsValue.truthy, truthy.
  destruct (Qeq_bool q 0) eqn:E.
  { apply Qeq_bool_iff in E. contradiction. }
  unfold clamp, of_Z; simpl.
  destruct (Qle_bool q (inject_Z lo)) eqn:E1.
  { apply Qle_bool_iff in E1. exfalso. exact (Qlt_not_le _ _ Hl E1). }
  simpl. destruct (Qle_bool q (inject_Z hi)) eqn:E2; [reflexivity|].
  apply Qle_bool_false in E2. exfalso. exact (Qlt_not_le _ _ Hh E2).
Qed.


Lemma getValue_set (cfg : gmap string JsValue.t) (key : string)
    (v : JsValue.t) :
  getValue (<[key := v]> cfg) key = v.
Proof. unfold getValue. rewrite lookup_insert_eq. reflexivity. Qed.

(** [readable], key by key. *)
Lemma readable_keys (affects : string -> bool)
    (cfg : gmap string JsValue.t) :
  readable affects cfg ->
  (affects "screencastMode.mouseIndicatorSize" = true ->
   converts (getValue cfg "screencastMode.mouseIndicatorSize"))
  /\ (affects "screencastMode.fontSize" = true ->
      converts (getValue cfg "screencastMode.fontSize"))
  /\ (affects "screencastMode.verticalOffset" = true ->
      converts (getValue cfg "screencastMode.verticalOffset"))
  /\ (affects "screencastMode.keyboardOverlayTimeout" = true ->
      converts (getValue cfg "screencastMode.keyboardOverlayTimeout")).
Proof.
  intros H. unfold readable, scalar_keys in H.
  split; [|split; [|split]]; apply H; set_solver.
Qed.

(** A configuration whose scalar settings are numbers, where set, is
    readable: the registered defaults are numbers. *)
Lemma numbers_readable (affects : string -> bool)
    (cfg : gmap string JsValue.t) :
  (forall key v, key ∈ scalar_keys -> cfg !! key = Some v ->
                 exists z, v = JsValue.of_Z z) ->
  readable affects cfg.
Proof.
  intros Hnum key Hkey _. unfold getValue.
  destruct (cfg !! key) as [v|] eqn:E.
  - destruct (Hnum key v Hkey E) as [z ->]. right. discriminate.
  - unfold scalar_keys in Hkey.
    repeat (apply elem_of_cons in Hkey; destruct Hkey as [-> | Hkey]);
      [right; discriminate .. | apply elem_of_nil in Hkey; destruct Hkey].
Qed.

(** An overlay before any update has run. *)
Definition blank : Overlay :=
  {| mouseIndicatorSize := NaN; keyboardFontSize := NaN;
     keyboardBottom := NaN; keyboardMarkerTimeout := NaN |}.

Example font_size_too_large :
  keyboardFontSize
    (updateKeyboardFontSize
       {[ "screencastMode.fontSize" := JsValue.of_Z 150 ]} blank)
  = of_Z 100.
Proof. reflexivity. Qed.

Example font_size_as_text_of_a_number :
  keyboardFontSize
    (updateKeyboardFontSize
       {[ "screencastMode.fontSize" := JsValue.Text "150" (of_Z 150) ]} blank)
  = of_Z 100.
Proof. reflexivity. Qed.

Example timeout_zero_falls_back :
  keyboardMarkerTimeout
    (updateKeyboardMarkerTimeout
       {[ "screencastMode.keyboardOverlayTimeout" := JsValue.of_Z 0 ]} blank)
  = of_Z 800.
Proof. reflexivity. Qed.

Example offset_not_a_number :
  keyboardBottom
    (updateKeyboardMarker
       {[ "screencastMode.verticalOffset" := JsValue.Number NaN ]} blank)
  = of_Z 0.
Proof. reflexivity. Qed.

(** The vertical offset of a user who has set nothing is the registered
    default 20, not the 0 of the update's own fallback. *)
Example offset_unset_is_registered_default :
  keyboardBottom (run_updates ∅ blank) = of_Z 20.
Proof. reflexivity. Qed.




End ScreencastFacts.

(** ** Hover controller *)
Module HoverFacts.
Import Hover.

Lemma hideWidgets_suppressed (dd : bool) (c : ModesHoverController) :
  (_isMouseDown c && _hoverClicked c && isColorPickerVisible c) || dd = true ->
  _hideWidgets dd c = c.
Proof. intros H. unfold _hideWidgets. rewrite H. reflexivity. Qed.

Lemma hideWidgets_performed (dd : bool) (c : ModesHoverController) :
  (_isMouseDown c && _hoverClicked c && isColorPickerVisible c) || dd = false ->
  _hoverClicked (_hideWidgets dd c) = false
  /\ both_hidden (_hideWidgets dd c)
  /\ _isMouseDown (_hideWidgets dd c) = _isMouseDown c
  /\ _isHoverEnabled (_hideWidgets dd c) = _isHoverEnabled c
  /\ _isHoverSticky (_hideWidgets dd c) = _isHoverSticky c.
Proof.
  intros H. unfold _hideWidgets. rewrite H.
  unfold both_hidden, isHoverVisible, isGlyphVisible. simpl.
  destruct (_contentWidget c), (_glyphWidget c); simpl; auto.
Qed.

(** Hiding never shows a widget. *)
Lemma hideWidgets_keeps_hidden (dd : bool) (c : ModesHoverController) :
  both_hidden c -> both_hidden (_hideWidgets dd c).
Proof.
  intros Hc.
  destruct ((_isMouseDown c && _hoverClicked c && isColorPickerVisible c) || dd)
    eqn:G.
  - rewrite hideWidgets_suppressed by exact G. exact Hc.
  - apply hideWidgets_performed. exact G.
Qed.

(** C8.  The hide operation does nothing at all when the mouse button is
    down, the hover was clicked and the colour picker is visible, or
    when the inline-suggestion dropdown is visible; in every other state
    it clears [_hoverClicked] and leaves both widgets hidden. *)
Theorem hideWidgets_guard (dropDownVisible : bool) (c : ModesHoverController) :
  if (_isMouseDown c && _hoverClicked c && isColorPickerVisible c)
     || dropDownVisible
  then _hideWidgets dropDownVisible c = c
  else _hoverClicked (_hideWidgets dropDownVisible c) = false
       /\ both_hidden (_hideWidgets dropDownVisible c).
Proof.
  destruct ((_isMouseDown c && _hoverClicked c && isColorPickerVisible c)
            || dropDownVisible) eqn:G.
  - apply hideWidgets_suppressed. exact G.
  - split; apply hideWidgets_performed; exact G.
Qed.

Section Moves.
Variable maybeShowAt :
  IEditorMouseEvent -> ContentHoverController -> bool * ContentHoverController.

(** C6.  In sticky mode, with the content hover widget visible, a
    mouse-move whose target is the content hover widget changes nothing:
    the controller is left as it was, so neither widget is hidden.  This
    holds in every state of the controller, reachable or not. *)
Theorem sticky_move_over_content_preserves
    (dropDownVisible : bool) (mouseEvent : IEditorMouseEvent)
    (c : ModesHoverController) :
  _isHoverSticky c = true ->
  isHoverVisible c = true ->
  is_widget CONTENT_WIDGET ContentHoverWidget_ID (target mouseEvent) = true ->
  _onEditorMouseMove maybeShowAt dropDownVisible mouseEvent c = c.
Proof.
  intros Hsticky _ Htarget. unfold _onEditorMouseMove.
  destruct (_isMouseDown c && _hoverClicked c); [reflexivity|].
  rewrite Hsticky, Htarget. reflexivity.
Qed.

(** A mouse-move never shows a widget when the content widget declines
    the position and the target is no glyph margin position, provided
    the dropdown is closed. *)
Lemma mouseMove_declined_keeps_hidden
    (mouseEvent : IEditorMouseEvent) (c : ModesHoverController) :
  (forall w, fst (maybeShowAt mouseEvent w) = false) ->
  is_glyph_margin_position (target mouseEvent) = false ->
  both_hidden c ->
  both_hidden (_onEditorMouseMove maybeShowAt false mouseEvent c).
Proof.
  intros Hdecl Hglyph Hc. unfold _onEditorMouseMove.
  destruct (_isMouseDown c && _hoverClicked c) eqn:Hdown; [exact Hc|].
  repeat match goal with
         | |- both_hidden (if ?b then c else _) => destruct b; [exact Hc|]
         end.
  destruct (negb (_isHoverEnabled c)).
  { apply hideWidgets_keeps_hidden. exact Hc. }
  destruct (_getOrCreateContentWidget c) as [w c1] eqn:Hget.
  specialize (Hdecl w).
  destruct (maybeShowAt mouseEvent w) as [shown w'] eqn:Hshow.
  simpl in Hdecl. subst shown.
  assert (Hdown1 : _isMouseDown c1 && _hoverClicked c1 = false).
  { unfold _getOrCreateContentWidget in Hget.
    destruct (_contentWidget c); inversion Hget; subst; exact Hdown. }
  assert (Hhide : both_hidden
            (_hideWidgets false (set_contentWidget (Some w') c1))).
  { apply hideWidgets_performed. simpl. rewrite Hdown1. reflexivity. }
  unfold is_glyph_margin_position in Hglyph.
  destruct (type (target mouseEvent)); try exact Hhide.
  destruct (position (target mouseEvent)); [discriminate Hglyph | exact Hhide].
Qed.

(** The two handlers in a row, with the dropdown closed: a mouse-down
    outside both hover widgets whose hide is not suppressed, then a
    mouse-move that brings nothing up. *)
Lemma mouseDown_outside_then_move_declined
    (down move : IEditorMouseEvent) (c : ModesHoverController) :
  outside_hover_widgets (target down) = true ->
  MouseTargetType_eqb (type (target down)) OVERLAY_WIDGET
    && _hoverClicked c && isColorPickerVisible c = false ->
  (forall w, fst (maybeShowAt move w) = false) ->
  is_glyph_margin_position (target move) = false ->
  both_hidden
    (_onEditorMouseMove maybeShowAt false move
       (_onEditorMouseDown false down c)).
Proof.
  intros Hout Hguard Hdecl Hglyph.
  apply mouseMove_declined_keeps_hidden; [exact Hdecl | exact Hglyph |].
  unfold outside_hover_widgets in Hout.
  apply andb_true_iff in Hout as [Hc Hm].
  apply negb_true_iff in Hc. apply negb_true_iff in Hm.
  unfold _onEditorMouseDown. rewrite Hc, Hm.
  apply hideWidgets_performed.
  destruct (MouseTargetType_eqb (type (target down)) OVERLAY_WIDGET);
    unfold isColorPickerVisible in *; simpl in *.
  - rewrite Hguard. reflexivity.
  - reflexivity.
Qed.

(** C7, amended.  In an editor whose hover is enabled, so that the
    controller is subscribed to mouse-down, and whose inline-suggestion
    dropdown is closed, a mouse-down event outside both hover widgets,
    immediately followed by a mouse-move event that the content widget
    declines and whose target is no glyph margin position, leaves both
    widgets hidden -- unless the mouse-down hit another overlay widget
    while the hover was clicked and the colour picker is visible, which
    also suppresses the hide.  The events go through the subscriptions
    of [_hookEvents]; the state of the controller is arbitrary
    otherwise. *)
Theorem mouseDown_then_move_hides_when_unguarded
    (down move : IEditorMouseEvent) (ed : Editor) :
  _isHoverEnabled (hover ed) = true ->
  dropDownVisible ed = false ->
  outside_hover_widgets (target down) = true ->
  MouseTargetType_eqb (type (target down)) OVERLAY_WIDGET
    && _hoverClicked (hover ed) && isColorPickerVisible (hover ed) = false ->
  (forall w, fst (maybeShowAt move w) = false) ->
  is_glyph_margin_position (target move) = false ->
  both_hidden
    (hover (dispatch maybeShowAt (MouseMove move)
              (dispatch maybeShowAt (MouseDown down) ed))).
Proof.
  intros Hen Hdd Hout Hguard Hdecl Hglyph.
  cbn [dispatch hover dropDownVisible]. rewrite Hen, Hdd.
  apply mouseDown_outside_then_move_declined; assumption.
Qed.

End Moves.

(** Example inputs: an editor in which no hover participant offers
    anything, a position in the glyph margin and one in the empty
    content area. *)
Definition nothing_to_show (e : IEditorMouseEvent) (w : ContentHoverController)
    : bool * ContentHoverController := (false, w).

Definition over_glyph_margin : IEditorMouseEvent :=
  {| target := {| type := GUTTER_GLYPH_MARGIN; detail := "";
                  position := Some {| lineNumber := 3; column := 1 |} |};
     selectionIsCollapsed := Some true |}.

Definition over_empty_content : IEditorMouseEvent :=
  {| target := {| type := CONTENT_EMPTY; detail := "";
                  position := Some {| lineNumber := 10; column := 1 |} |};
     selectionIsCollapsed := Some true |}.

Definition over_content_hover : IEditorMouseEvent :=
  {| target := {| type := CONTENT_WIDGET; detail := ContentHoverWidget_ID;
                  position := None |};
     selectionIsCollapsed := Some true |}.

(** The editor after the glyph hover came up and the inline-suggestion
    dropdown opened. *)
Definition glyph_shown_dropdown_open : Editor :=
  run nothing_to_show [MouseMove over_glyph_margin; DropDownChange true]
      (initial true false).

Definition over_text : IEditorMouseEvent :=
  {| target := {| type := CONTENT_TEXT; detail := "";
                  position := Some {| lineNumber := 10; column := 4 |} |};
     selectionIsCollapsed := Some true |}.

Definition over_other_overlay : IEditorMouseEvent :=
  {| target := {| type := OVERLAY_WIDGET; detail := "editor.contrib.findWidget";
                  position := None |};
     selectionIsCollapsed := Some true |}.

(** An editor whose hover participants offer a colour picker over text
    and nothing elsewhere. *)
Definition color_picker_over_text (e : IEditorMouseEvent)
    (w : ContentHoverController) : bool * ContentHoverController :=
  if MouseTargetType_eqb (type (target e)) CONTENT_TEXT
  then (true, {| content_visible := true;
                 content_visibleFromKeyboard := false;
                 content_colorPickerVisible := true |})
  else (false, w).

(** The editor after the hover with a colour picker came up and was
    clicked. *)
Definition clicked_hover_with_color_picker : Editor :=
  run color_picker_over_text
      [MouseMove over_text; MouseDown over_content_hover; MouseUp]
      (initial true false).

(** The other way the hide of a mouse-down is suppressed: the hover was
    clicked, its colour picker is open, and the mouse goes down on some
    other overlay widget.  The hover stays as it is, also after the
    mouse-move that follows. *)
Lemma mouseDown_on_other_overlay_keeps_clicked_hover :
  reachable color_picker_over_text clicked_hover_with_color_picker
  /\ _isHoverEnabled (hover clicked_hover_with_color_picker) = true
  /\ dropDownVisible clicked_hover_with_color_picker = false
  /\ outside_hover_widgets (target over_other_overlay) = true
  /\ (forall w, fst (color_picker_over_text over_empty_content w) = false)
  /\ isHoverVisible
       (hover (dispatch color_picker_over_text (MouseMove over_empty_content)
                 (dispatch color_picker_over_text (MouseDown over_other_overlay)
                    clicked_hover_with_color_picker))) = true.
Proof.
  split; [|split; [|split; [|split; [|split]]]]; try reflexivity.
  exists true, false,
    [MouseMove over_text; MouseDown over_content_hover; MouseUp].
  reflexivity.
Qed.

(** The editor after the hover was shown from the keyboard in sticky
    mode and then disabled in the settings. *)
Definition sticky_hover_then_disabled : Editor :=
  run nothing_to_show [ShowContentHover Keyboard; HoverOptionChange false true]
      (initial true true).

(** With the hover disabled the controller is not subscribed to
    mouse-down: the event does not reach it, and the mouse-move that
    follows returns before it hides anything. *)
Lemma mouseDown_is_not_delivered_when_disabled :
  reachable nothing_to_show sticky_hover_then_disabled
  /\ dropDownVisible sticky_hover_then_disabled = false
  /\ isHoverVisible
       (hover (dispatch nothing_to_show (MouseMove over_empty_content)
                 (dispatch nothing_to_show (MouseDown over_empty_content)
                    sticky_hover_then_disabled))) = true.
Proof.
  split; [|split]; try reflexivity.
  exists true, true, [ShowContentHover Keyboard; HoverOptionChange false true].
  reflexivity.
Qed.

(** C7, as stated, fails: from a reachable state with the glyph hover
    shown and the inline-suggestion dropdown open, a mouse-down on empty
    content followed by a mouse-move over empty content leaves the glyph
    widget visible. *)
Lemma mouseDown_then_move_keeps_glyph_when_dropdown_open :
  reachable nothing_to_show glyph_shown_dropdown_open
  /\ outside_hover_widgets (target over_empty_content) = true
  /\ (forall w, fst (nothing_to_show over_empty_content w) = false)
  /\ is_glyph_margin_position (target over_empty_content) = false
  /\ ~ both_hidden
        (hover (dispatch nothing_to_show (MouseMove over_empty_content)
                  (dispatch nothing_to_show (MouseDown over_empty_content)
                     glyph_shown_dropdown_open))).
Proof.
  split; [|split; [|split; [|split]]].
  - exists true, false, [MouseMove over_glyph_margin; DropDownChange true].
    reflexivity.
  - reflexivity.
  - intros w. reflexivity.
  - reflexivity.
  - intros [_ Hglyph]. vm_compute in Hglyph. discriminate Hglyph.
Qed.

Lemma mouseDown_then_move_hides_when_unguarded_witness :
  both_hidden
    (hover (dispatch nothing_to_show (MouseMove over_empty_content)
              (dispatch nothing_to_show (MouseDown over_empty_content)
                 (run nothing_to_show [MouseMove over_glyph_margin]
                      (initial true false))))).
Proof.
  apply (mouseDown_then_move_hides_when_unguarded nothing_to_show
           over_empty_content over_empty_content).
  - reflexivity.
  - reflexivity.
  - reflexivity.
  - reflexivity.
  - intros w. reflexivity.
  - reflexivity.
Defined.

Lemma sticky_move_over_content_preserves_witness :
  let c := hover (run nothing_to_show [ShowContentHover Keyboard]
                    (initial true true)) in
  _onEditorMouseMove nothing_to_show false over_content_hover c = c.
Proof.
  apply (sticky_move_over_content_preserves nothing_to_show false
           over_content_hover).
  - reflexivity.
  - reflexivity.
  - reflexivity.
Defined.

End HoverFacts.

(** ** Interactive-session bridge *)
Module BridgeFacts.
Import Bridge.
Local Open Scope bridge_scope.

(** *** The composite key *)

(** [s] does not contain the character [c]. *)
Fixpoint free_of (c : ascii) (s : string) : Prop :=
  match s with
  | EmptyString => True
  | String a s => a <> c /\ free_of c s
  end.

Lemma free_of_app (c : ascii) (s1 s2 : string) :
  free_of c s1 -> free_of c s2 -> free_of c (s1 +:+ s2).
Proof. induction s1 as [|a s1 IH]; simpl; intuition. Qed.

Lemma pretty_N_go_free (x : N) (s : string) :
  free_of "_" s -> free_of "_" (pretty_N_go x s).
Proof.
  revert s. induction (N.lt_wf_0 x) as [x _ IH]. intros s Hs.
  destruct (decide (x = 0)%N) as [->|Hx].
  - rewrite pretty_N_go_0. exact Hs.
  - rewrite pretty_N_go_step by lia.
    apply IH.
    + apply N.div_lt; lia.
    + split; [|exact Hs].
      unfold pretty_N_char. repeat case_match; discriminate.
Qed.

Lemma pretty_N_free (x : N) : free_of "_" (pretty x).
Proof.
  unfold pretty, pretty_N. case_decide.
  - simpl. split; [discriminate | exact I].
  - apply pretty_N_go_free. exact I.
Qed.

Lemma pretty_Z_free (z : Z) : free_of "_" (pretty z).
Proof.
  destruct z as [|p|p]; unfold pretty, pretty_Z.
  - simpl. split; [discriminate | exact I].
  - apply pretty_N_free.
  - apply (free_of_app _ "-").
    + simpl. split; [discriminate | exact I].
    + apply pretty_N_free.
Qed.

(** Two texts without [c], each followed by [c] and a rest, are equal
    only part by part. *)
Lemma separator_inj (c : ascii) (a a' b b' : string) :
  free_of c a -> free_of c a' ->
  a +:+ String c b = a' +:+ String c b' -> a = a' /\ b = b'.
Proof.
  revert a'. induction a as [|x a IH]; intros [|x' a']; simpl.
  - intros _ _ H. inversion H. auto.
  - intros _ [Hx' _] H. inversion H. congruence.
  - intros [Hx _] _ H. inversion H. congruence.
  - intros [_ Ha] [_ Ha'] H. inversion H as [[Hx Hrest]].
    destruct (IH a' Ha Ha' Hrest) as [-> ->]. auto.
Qed.

(** The key tells pairs of integers apart. *)
Lemma request_key_inj (h s h' s' : Z) :
  request_key h s = request_key h' s' -> h = h' /\ s = s'.
Proof.
  unfold request_key. intros H.
  apply separator_inj in H as [Hh Hs]; try apply pretty_Z_free.
  split; eapply pretty_Z_inj; eassumption.
Qed.

Example request_key_2_7 : request_key 2 7 = "2_7".
Proof. reflexivity. Qed.

Example request_key_negative : request_key (-3) 10 = "-3_10".
Proof. reflexivity. Qed.

(** *** What the handlers do to the callback map *)

(** [m] leaves the callback map as it is, whatever it returns. *)
Definition keeps_callbacks {A} (m : M A) : Prop :=
  forall st,
    _activeRequestProgressCallbacks (snd (m st))
    = _activeRequestProgressCallbacks st.

Lemma keeps_ret {A} (a : A) : keeps_callbacks (ret a).
Proof. intros st. reflexivity. Qed.

Lemma keeps_throw {A} (e : Error) : keeps_callbacks (@throw A e).
Proof. intros st. reflexivity. Qed.

Lemma keeps_read {A} (f : MainThreadInteractiveSession -> A) :
  keeps_callbacks (read f).
Proof. intros st. reflexivity. Qed.

Lemma keeps_perform (e : Effect) : keeps_callbacks (perform e).
Proof. intros st. reflexivity. Qed.

Lemma keeps_with_registrations f : keeps_callbacks (with_registrations f).
Proof. intros st. reflexivity. Qed.

Lemma keeps_with_inputRegistrations f :
  keeps_callbacks (with_inputRegistrations f).
Proof. intros st. reflexivity. Qed.

Lemma keeps_bind {A B} (m : M A) (k : A -> M B) :
  keeps_callbacks m -> (forall a, keeps_callbacks (k a)) ->
  keeps_callbacks (bind m k).
Proof.
  intros Hm Hk st. unfold bind. specialize (Hm st).
  destruct (m st) as [[a|e] st1]; simpl in *.
  - rewrite Hk. exact Hm.
  - exact Hm.
Qed.

Lemma keeps_settled {R} (o : Outcome R) : keeps_callbacks (settled o).
Proof. destruct o; [apply keeps_ret | apply keeps_throw]. Qed.

Lemma keeps_await {R A} (call : ExtHostCall) (k : Outcome R -> M A) :
  keeps_callbacks (await call k).
Proof.
  apply keeps_bind; [apply keeps_perform | intros; apply keeps_ret].
Qed.

Create HintDb keeps.
#[local] Hint Resolve keeps_ret keeps_throw keeps_read keeps_perform
  keeps_with_registrations keeps_with_inputRegistrations keeps_settled
  keeps_await : keeps.

Ltac keeps_step :=
  first
    [ apply keeps_bind; [|intros ?]
    | match goal with
      | |- keeps_callbacks (match ?x with _ => _ end) => destruct x
      end
    | solve [auto with keeps] ].

Lemma keeps_dispose_all (values : list IDisposable) :
  keeps_callbacks (DisposableMap_dispose_all values).
Proof.
  induction values as [|d values IH]; simpl.
  - apply keeps_ret.
  - apply keeps_bind; [apply keeps_perform | intros _; exact IH].
Qed.

Lemma keeps_bridge_dispose : keeps_callbacks bridge_dispose.
Proof.
  unfold bridge_dispose.
  repeat (keeps_step || apply keeps_dispose_all).
Qed.

Lemma keeps_register (handle : Z) (id : string) (implementsProgress : bool) :
  keeps_callbacks (registerInteractiveSessionProvider handle id implementsProgress).
Proof.
  unfold registerInteractiveSessionProvider, DisposableMap_set.
  repeat keeps_step.
Qed.

Lemma keeps_unregister (handle : Z) :
  keeps_callbacks (unregisterInteractiveSessionProvider handle).
Proof.
  unfold unregisterInteractiveSessionProvider, DisposableMap_deleteAndDispose.
  repeat keeps_step.
Qed.

Lemma keeps_acceptProgress (handle sessionId : Z) (p : IInteractiveProgress) :
  keeps_callbacks (acceptInteractiveResponseProgress handle sessionId p).
Proof. unfold acceptInteractiveResponseProgress. repeat keeps_step. Qed.

(** *** Single handlers *)

Lemma provideReply_run (handle : Z) (request : IInteractiveRequest)
    (progress : ProgressCallback) (token : CancellationToken)
    (st : MainThreadInteractiveSession) :
  let key := request_key handle (id (session request)) in
  let call := provideInteractiveReply_ handle (id (session request))
                {| dto_message := request_message request |} token in
  provideReply handle request progress token st
  = (Ok {| awaited := call; resume := provideReply_resume request key |},
     log (ProxyCall call) (update_callbacks (insert key progress) st)).
Proof. reflexivity. Qed.

Lemma provideReply_resume_run (request : IInteractiveRequest) (key : string)
    (answer : Outcome (option IInteractiveResponseDto))
    (st : MainThreadInteractiveSession) :
  provideReply_resume request key answer st
  = (match answer with
     | Resolved dto =>
         Ok {| response_session := session request; response_dto := dto |}
     | Rejected e => Throw e
     end,
     update_callbacks (delete key) st).
Proof. destruct answer; reflexivity. Qed.

Lemma acceptProgress_absent (handle sessionId : Z) (p : IInteractiveProgress)
    (st : MainThreadInteractiveSession) :
  _activeRequestProgressCallbacks st !! request_key handle sessionId = None ->
  acceptInteractiveResponseProgress handle sessionId p st = (Ok tt, st).
Proof.
  intros H. unfold acceptInteractiveResponseProgress, bind, read.
  rewrite H. reflexivity.
Qed.

Lemma acceptProgress_present (handle sessionId : Z) (p : IInteractiveProgress)
    (callback : ProgressCallback) (st : MainThreadInteractiveSession) :
  _activeRequestProgressCallbacks st !! request_key handle sessionId
  = Some callback ->
  acceptInteractiveResponseProgress handle sessionId p st
  = (Ok tt, log (ProgressReported callback p) st).
Proof.
  intros H. unfold acceptInteractiveResponseProgress, bind, read.
  rewrite H. reflexivity.
Qed.

(** C1.  [provideReply] registers the callback under the key of its
    (handle, session) pair, issues the remote call and suspends; when
    the call settles -- resolved or rejected, and whatever state the
    bridge is in by then -- the callback map no longer has that key.  A
    resolved call returns the response, a rejected one rethrows. *)
Theorem provideReply_releases_callback
    (handle : Z) (request : IInteractiveRequest) (progress : ProgressCallback)
    (token : CancellationToken) (st : MainThreadInteractiveSession) :
  let key := request_key handle (id (session request)) in
  exists awaiting st1,
    provideReply handle request progress token st = (Ok awaiting, st1)
    /\ _activeRequestProgressCallbacks st1 !! key = Some progress
    /\ forall (answer : Outcome (option IInteractiveResponseDto))
              (st2 : MainThreadInteractiveSession),
         _activeRequestProgressCallbacks
           (snd (resume awaiting answer st2)) !! key = None
         /\ fst (resume awaiting answer st2)
            = match answer with
              | Resolved dto =>
                  Ok {| response_session := session request;
                        response_dto := dto |}
              | Rejected e => Throw e
              end.
Proof.
  intros key. eexists. eexists. split; [apply provideReply_run|].
  split.
  - simpl. apply lookup_insert_eq.
  - intros answer st2. simpl. rewrite provideReply_resume_run. simpl.
    split; [apply lookup_delete_eq | reflexivity].
Qed.

Lemma find_undeclared (id : string)
    (providers : list IInteractiveSessionProviderContribution) :
  id ∉ contribution_id <$> providers ->
  find (fun staticProvider => String.eqb (contribution_id staticProvider) id)
       providers = None.
Proof.
  induction providers as [|c providers IH]; simpl; [reflexivity|].
  intros Hnot. apply not_elem_of_cons in Hnot as [Hne Hrest].
  destruct (String.eqb_spec (contribution_id c) id) as [Heq|_].
  - congruence.
  - apply IH. exact Hrest.
Qed.

(** C2.  Registering a provider whose id is not in the static
    contribution list throws, and the bridge is exactly as before: no
    remote call and no service call were made, and neither the
    registration map nor the callback map changed. *)
Theorem register_undeclared_throws
    (handle : Z) (id : string) (implementsProgress : bool)
    (st : MainThreadInteractiveSession) :
  id ∉ contribution_id <$> registeredProviders st ->
  registerInteractiveSessionProvider handle id implementsProgress st
  = (Throw {| message := "Provider " +:+ id
                         +:+ " must be declared in the package.json." |},
     st).
Proof.
  intros Hnot. unfold registerInteractiveSessionProvider, bind, read.
  rewrite find_undeclared by exact Hnot. reflexivity.
Qed.

(** C5.  [prepareSession] asks the remote side; when the remote returns
    nothing, the operation returns no session; when it returns a
    session, the result carries the remote's user names, or ['Username']
    and ['Response'] where they are missing, and its dispose hook sends
    [$releaseSession] with the session's id. *)
Theorem prepareSession_wraps_remote_session
    (handle : Z) (registration : IInteractiveSessionProviderContribution)
    (initialState : option string) (token : CancellationToken)
    (st : MainThreadInteractiveSession) :
  exists awaiting,
    prepareSession handle registration initialState token st
    = (Ok awaiting,
       log (ProxyCall (prepareInteractiveSession_ handle initialState token)) st)
    /\ (forall st', resume awaiting (Resolved None) st' = (Ok None, st'))
    /\ (forall dto st',
          exists wrapped hook,
            resume awaiting (Resolved (Some dto)) st' = (Ok (Some wrapped), st')
            /\ id wrapped = dto_id dto
            /\ requesterUsername wrapped
               = match dto_requesterUsername dto with
                 | Some name => name
                 | None => "Username"
                 end
            /\ responderUsername wrapped
               = match dto_responderUsername dto with
                 | Some name => name
                 | None => "Response"
                 end
            /\ dispose wrapped = Some hook
            /\ forall st'',
                 hook st''
                 = (Ok tt, log (ProxyCall (releaseSession_ (dto_id dto))) st'')).
Proof.
  eexists. split; [reflexivity|]. split.
  - intros st'. reflexivity.
  - intros dto st'. eexists. eexists. split; [reflexivity|].
    simpl. split; [reflexivity|].
    split; [destruct (dto_requesterUsername dto); reflexivity|].
    split; [destruct (dto_responderUsername dto); reflexivity|].
    split; [reflexivity|].
    intros st''. reflexivity.
Qed.


(** *** The bridge on the event loop *)

(** The call in flight resumes with the rest of [provideReply], which
    deletes the key of its own pair. *)
Definition resumes_own_key (r : InFlightReply) : Prop :=
  resume (reply_awaiting r)
  = provideReply_resume (reply_request r)
      (request_key (reply_handle r) (reply_session r)).

(** Every key of the callback map belongs to a call in flight. *)
Definition callbacks_owned (sys : System) : Prop :=
  forall key callback,
    _activeRequestProgressCallbacks (bridge sys) !! key = Some callback ->
    exists i r,
      inflight sys !! i = Some r
      /\ request_key (reply_handle r) (reply_session r) = key.

Lemma exec_keeps {A} (m : M A) (sys : System) :
  keeps_callbacks m ->
  _activeRequestProgressCallbacks (bridge (exec m sys))
  = _activeRequestProgressCallbacks (bridge sys)
  /\ inflight (exec m sys) = inflight sys.
Proof. intros Hm. split; [apply Hm | reflexivity]. Qed.

(** The events that neither start nor settle a reply. *)
Definition is_reply_event (ev : Event) : bool :=
  match ev with
  | ProvideReply _ _ _ _ | SettleReply _ _ => true
  | _ => false
  end.

Lemma step_other (ev : Event) (sys : System) :
  is_reply_event ev = false ->
  _activeRequestProgressCallbacks (bridge (step ev sys))
  = _activeRequestProgressCallbacks (bridge sys)
  /\ inflight (step ev sys) = inflight sys.
Proof.
  destruct ev; intros Hev; try discriminate Hev; unfold step; apply exec_keeps.
  - apply keeps_register.
  - apply keeps_unregister.
  - apply keeps_acceptProgress.
  - apply keeps_perform.
  - apply keeps_perform.
  - apply keeps_await.
  - apply keeps_perform.
  - apply keeps_await.
  - apply keeps_await.
  - apply keeps_await.
  - apply keeps_bridge_dispose.
Qed.

Lemma step_provideReply (handle : Z) (request : IInteractiveRequest)
    (progress : ProgressCallback) (token : CancellationToken) (sys : System) :
  let key := request_key handle (id (session request)) in
  exists r,
    reply_handle r = handle /\ reply_request r = request
    /\ reply_progress r = progress /\ resumes_own_key r
    /\ inflight (step (ProvideReply handle request progress token) sys)
       = inflight sys ++ [r]
    /\ _activeRequestProgressCallbacks
         (bridge (step (ProvideReply handle request progress token) sys))
       = <[key := progress]> (_activeRequestProgressCallbacks (bridge sys)).
Proof.
  intros key. unfold step. rewrite provideReply_run.
  exists {| reply_handle := handle; reply_request := request;
            reply_progress := progress;
            reply_awaiting :=
              {| awaited := provideInteractiveReply_ handle (id (session request))
                              {| dto_message := request_message request |} token;
                 resume := provideReply_resume request key |} |}.
  repeat split.
Qed.

Lemma step_settleReply (n : nat) (answer : Outcome (option IInteractiveResponseDto))
    (r : InFlightReply) (sys : System) :
  inflight sys !! n = Some r ->
  resumes_own_key r ->
  inflight (step (SettleReply n answer) sys) = delete n (inflight sys)
  /\ _activeRequestProgressCallbacks (bridge (step (SettleReply n answer) sys))
     = delete (request_key (reply_handle r) (reply_session r))
         (_activeRequestProgressCallbacks (bridge sys)).
Proof.
  intros Hn Hr. unfold step. rewrite Hn. cbn [bridge inflight].
  split; [reflexivity|].
  rewrite Hr, provideReply_resume_run. reflexivity.
Qed.

Lemma step_resumes (ev : Event) (sys : System) :
  Forall resumes_own_key (inflight sys) ->
  Forall resumes_own_key (inflight (step ev sys)).
Proof.
  intros Hall. destruct (is_reply_event ev) eqn:Hev.
  - destruct ev; try discriminate Hev.
    + destruct (step_provideReply handle request progress token sys)
        as (r & _ & _ & _ & Hr & Hin & _).
      rewrite Hin. apply Forall_app. split; [exact Hall|].
      constructor; [exact Hr | constructor].
    + destruct (inflight sys !! n) as [r|] eqn:Hn.
      * assert (Hr : resumes_own_key r)
          by (eapply Forall_lookup_1; eassumption).
        destruct (step_settleReply n answer r sys Hn Hr) as [Hin _].
        rewrite Hin. apply Forall_delete. exact Hall.
      * simpl. rewrite Hn. exact Hall.
  - destruct (step_other ev sys Hev) as [_ Hin]. rewrite Hin. exact Hall.
Qed.

Lemma step_owned (ev : Event) (sys : System) :
  Forall resumes_own_key (inflight sys) ->
  callbacks_owned sys -> callbacks_owned (step ev sys).
Proof.
  intros Hall Hown. destruct (is_reply_event ev) eqn:Hev.
  - destruct ev; try discriminate Hev.
    + destruct (step_provideReply handle request progress token sys)
        as (r & Hh & Hreq & _ & _ & Hin & Hcb).
      intros key callback. rewrite Hcb, Hin.
      destruct (decide (request_key handle (id (session request)) = key))
        as [Heq|Hne].
      * intros _. exists (length (inflight sys)), r. split.
        -- rewrite lookup_app_r by lia. rewrite Nat.sub_diag. reflexivity.
        -- unfold reply_session. rewrite Hh, Hreq. exact Heq.
      * rewrite lookup_insert_ne by exact Hne. intros Hk.
        destruct (Hown key callback Hk) as (i & r' & Hi & Hkey).
        exists i, r'. split; [|exact Hkey].
        apply lookup_app_l_Some. exact Hi.
    + destruct (inflight sys !! n) as [r|] eqn:Hn.
      * assert (Hr : resumes_own_key r)
          by (eapply Forall_lookup_1; eassumption).
        destruct (step_settleReply n answer r sys Hn Hr) as [Hin Hcb].
        intros key callback. rewrite Hcb, Hin. intros Hk.
        apply lookup_delete_Some in Hk as [Hne Hk].
        destruct (Hown key callback Hk) as (i & r' & Hi & Hkey).
        assert (i <> n).
        { intros ->. rewrite Hn in Hi. inversion Hi; subst. contradiction. }
        destruct (decide (i < n)%nat) as [Hlt|Hge].
        -- exists i, r'. split; [|exact Hkey].
           rewrite list_lookup_delete_lt by exact Hlt. exact Hi.
        -- exists (pred i), r'. split; [|exact Hkey].
           rewrite list_lookup_delete_ge by lia.
           replace (S (pred i)) with i by lia. exact Hi.
      * simpl. rewrite Hn. exact Hown.
  - destruct (step_other ev sys Hev) as [Hcb Hin].
    intros key callback. rewrite Hcb, Hin. apply Hown.
Qed.

Lemma run_cons (ev : Event) (evs : list Event) (sys : System) :
  run (ev :: evs) sys = run evs (step ev sys).
Proof. reflexivity. Qed.

Lemma run_invariant (evs : list Event) (sys : System) :
  Forall resumes_own_key (inflight sys) /\ callbacks_owned sys ->
  Forall resumes_own_key (inflight (run evs sys))
  /\ callbacks_owned (run evs sys).
Proof.
  revert sys. induction evs as [|ev evs IH]; intros sys [Hall Hown].
  - split; assumption.
  - rewrite run_cons. apply IH. split.
    + apply step_resumes. exact Hall.
    + apply step_owned; assumption.
Qed.

Lemma reachable_invariant (sys : System) :
  reachable sys ->
  Forall resumes_own_key (inflight sys) /\ callbacks_owned sys.
Proof.
  intros (contributions & evs & ->). apply run_invariant. split.
  - constructor.
  - intros key callback Hk. simpl in Hk. rewrite lookup_empty in Hk.
    discriminate Hk.
Qed.

(** C3.  In every reachable state, a progress delivery for a pair with
    no [provideReply] call in flight returns normally and leaves the
    bridge exactly as it was: both maps, and no effect performed. *)
Theorem progress_without_request_is_ignored
    (sys : System) (handle sessionId : Z) (progress : IInteractiveProgress) :
  reachable sys ->
  Forall (fun r => reply_for handle sessionId r = false) (inflight sys) ->
  acceptInteractiveResponseProgress handle sessionId progress (bridge sys)
  = (Ok tt, bridge sys).
Proof.
  intros Hreach Hnone. apply acceptProgress_absent.
  destruct (_activeRequestProgressCallbacks (bridge sys)
              !! request_key handle sessionId) as [callback|] eqn:Hk;
    [exfalso | reflexivity].
  destruct (reachable_invariant sys Hreach) as [_ Hown].
  destruct (Hown _ _ Hk) as (i & r & Hi & Hkey).
  apply request_key_inj in Hkey as [Hh Hs].
  assert (Hr : reply_for handle sessionId r = false)
    by (eapply (Forall_lookup_1 _ _ _ _ Hnone); exact Hi).
  unfold reply_for in Hr.
  rewrite !bool_decide_eq_true_2 in Hr by assumption. discriminate Hr.
Qed.

Lemma step_keeps_key (handle sessionId : Z) (callback : ProgressCallback)
    (ev : Event) (sys : System) :
  Forall resumes_own_key (inflight sys) ->
  concerns handle sessionId sys ev = false ->
  _activeRequestProgressCallbacks (bridge sys) !! request_key handle sessionId
  = Some callback ->
  _activeRequestProgressCallbacks (bridge (step ev sys))
    !! request_key handle sessionId = Some callback.
Proof.
  intros Hall Hev Hk. destruct (is_reply_event ev) eqn:Hreply.
  - destruct ev; try discriminate Hreply.
    + destruct (step_provideReply handle0 request progress token sys)
        as (r & _ & _ & _ & _ & _ & Hcb).
      rewrite Hcb. rewrite lookup_insert_ne; [exact Hk|].
      intros Heq. apply request_key_inj in Heq as [Hh Hs].
      simpl in Hev. rewrite !bool_decide_eq_true_2 in Hev by assumption.
      discriminate Hev.
    + destruct (inflight sys !! n) as [r|] eqn:Hn.
      * assert (Hr : resumes_own_key r)
          by (eapply Forall_lookup_1; eassumption).
        destruct (step_settleReply n answer r sys Hn Hr) as [_ Hcb].
        rewrite Hcb. rewrite lookup_delete_ne; [exact Hk|].
        intros Heq. apply request_key_inj in Heq as [Hh Hs].
        simpl in Hev. rewrite Hn in Hev. unfold reply_for in Hev.
        rewrite !bool_decide_eq_true_2 in Hev by assumption.
        discriminate Hev.
      * simpl. rewrite Hn. exact Hk.
  - destruct (step_other ev sys Hreply) as [Hcb _]. rewrite Hcb. exact Hk.
Qed.

Lemma undisturbed_keeps_key (handle sessionId : Z) (callback : ProgressCallback)
    (evs : list Event) (sys : System) :
  Forall resumes_own_key (inflight sys) ->
  undisturbed handle sessionId evs sys = true ->
  _activeRequestProgressCallbacks (bridge sys) !! request_key handle sessionId
  = Some callback ->
  _activeRequestProgressCallbacks (bridge (run evs sys))
    !! request_key handle sessionId = Some callback.
Proof.
  revert sys. induction evs as [|ev evs IH]; intros sys Hall Hund Hk.
  - exact Hk.
  - simpl in Hund. apply andb_true_iff in Hund as [Hev Hund].
    apply negb_true_iff in Hev.
    rewrite run_cons. apply IH.
    + apply step_resumes. exact Hall.
    + exact Hund.
    + apply step_keeps_key; assumption.
Qed.

(** C4, amended.  Once a [provideReply] call for (handle, session) has
    registered its callback, and as long as no [provideReply] call for
    the same pair starts or settles, one progress delivery for the pair
    calls that callback exactly once, with exactly the payload: the
    delivery returns normally and its only effect is that call. *)
Theorem progress_reaches_undisturbed_reply
    (sys : System) (handle : Z) (request : IInteractiveRequest)
    (callback : ProgressCallback) (token : CancellationToken)
    (evs : list Event) (progress : IInteractiveProgress) :
  reachable sys ->
  let sessionId := id (session request) in
  let started := step (ProvideReply handle request callback token) sys in
  undisturbed handle sessionId evs started = true ->
  acceptInteractiveResponseProgress handle sessionId progress
    (bridge (run evs started))
  = (Ok tt, log (ProgressReported callback progress) (bridge (run evs started))).
Proof.
  intros Hreach sessionId started Hund.
  apply acceptProgress_present.
  apply undisturbed_keeps_key; [|exact Hund|].
  - apply step_resumes. apply reachable_invariant. exact Hreach.
  - destruct (step_provideReply handle request callback token sys)
      as (r & _ & _ & _ & _ & _ & Hcb).
    unfold started. rewrite Hcb. apply lookup_insert_eq.
Qed.

(** *** Example runs *)

Definition p1 : IInteractiveSessionProviderContribution :=
  {| contribution_id := "p1"; extensionIcon := None |}.

Definition token0 : CancellationToken := {| isCancellationRequested := false |}.

Definition session_numbered (n : Z) : IInteractiveSession :=
  {| id := n; requesterUsername := "Username"; requesterAvatarIconUri := None;
     responderUsername := "Response"; responderAvatarIconUri := None;
     dispose := None |}.

Definition request_in (n : Z) : IInteractiveRequest :=
  {| session := session_numbered n; request_message := "hello" |}.

Definition first_callback : ProgressCallback := {| callback_id := 1 |}.
Definition second_callback : ProgressCallback := {| callback_id := 2 |}.

Definition hi : IInteractiveProgress := {| responsePart := "hi" |}.

(** Provider "p1" registered with handle 2, and two [provideReply] calls
    for session 7 started one after the other, none settled. *)
Definition overlapping_replies : System :=
  run [Register 2 "p1" true;
       ProvideReply 2 (request_in 7) first_callback token0;
       ProvideReply 2 (request_in 7) second_callback token0]
      (initial [p1]).

(** The same, after the first of the two calls has resolved. *)
Definition first_reply_settled : System :=
  step (SettleReply 0 (Resolved None)) overlapping_replies.

(** While both calls are in flight, progress for the pair goes to the
    second call's callback; the first call's callback is not called. *)
Lemma superseded_reply_gets_no_progress :
  (exists r, inflight overlapping_replies !! 0%nat = Some r
             /\ reply_handle r = 2 /\ reply_session r = 7
             /\ reply_progress r = first_callback)
  /\ acceptInteractiveResponseProgress 2 7 hi (bridge overlapping_replies)
     = (Ok tt, log (ProgressReported second_callback hi)
                   (bridge overlapping_replies)).
Proof.
  split.
  - eexists. split; [reflexivity|]. repeat split.
  - apply acceptProgress_present. vm_compute. reflexivity.
Qed.

(** C4, as stated, fails: of two overlapping calls for the same pair the
    first has settled and taken the key with it; the second call has
    registered its callback and has not settled, yet a progress delivery
    for the pair calls no callback at all. *)
Lemma unsettled_reply_gets_no_progress :
  reachable first_reply_settled
  /\ (exists r, inflight first_reply_settled = [r]
                /\ reply_handle r = 2 /\ reply_session r = 7
                /\ reply_progress r = second_callback)
  /\ acceptInteractiveResponseProgress 2 7 hi (bridge first_reply_settled)
     = (Ok tt, bridge first_reply_settled)
  /\ acceptInteractiveResponseProgress 2 7 hi (bridge first_reply_settled)
     <> (Ok tt, log (ProgressReported second_callback hi)
                    (bridge first_reply_settled)).
Proof.
  assert (Hnone :
    acceptInteractiveResponseProgress 2 7 hi (bridge first_reply_settled)
    = (Ok tt, bridge first_reply_settled)).
  { apply acceptProgress_absent. vm_compute. reflexivity. }
  split; [|split; [|split]].
  - exists [p1].
    exists [Register 2 "p1" true;
            ProvideReply 2 (request_in 7) first_callback token0;
            ProvideReply 2 (request_in 7) second_callback token0;
            SettleReply 0 (Resolved None)].
    reflexivity.
  - eexists. split; [reflexivity|]. repeat split.
  - exact Hnone.
  - rewrite Hnone. intros Heq.
    assert (Heff : length (effects (bridge first_reply_settled))
                   = length (effects (log (ProgressReported second_callback hi)
                                        (bridge first_reply_settled))))
      by congruence.
    unfold log in Heff; cbn [effects] in Heff.
    rewrite length_app in Heff. cbn [length] in Heff. lia.
Qed.

Lemma progress_reaches_undisturbed_reply_witness :
  let started := step (ProvideReply 2 (request_in 7) first_callback token0)
                      (run [Register 2 "p1" true] (initial [p1])) in
  let evs := [AcceptSessionState 7 "state";
              ProvideReply 2 (request_in 9) second_callback token0;
              Unregister 2] in
  acceptInteractiveResponseProgress 2 7 hi (bridge (run evs started))
  = (Ok tt, log (ProgressReported first_callback hi) (bridge (run evs started))).
Proof.
  apply (progress_reaches_undisturbed_reply
           (run [Register 2 "p1" true] (initial [p1]))
           2 (request_in 7) first_callback token0).
  - exists [p1], [Register 2 "p1" true]. reflexivity.
  - vm_compute. reflexivity.
Defined.

Lemma progress_without_request_is_ignored_witness :
  let sys := run [Register 1 "p1" true;
                  ProvideReply 1 (request_in 7) first_callback token0;
                  Unregister 1]
                 (initial [p1]) in
  acceptInteractiveResponseProgress 1 42 hi (bridge sys) = (Ok tt, bridge sys).
Proof.
  apply progress_without_request_is_ignored.
  - exists [p1].
    exists [Register 1 "p1" true;
            ProvideReply 1 (request_in 7) first_callback token0;
            Unregister 1].
    reflexivity.
  - repeat constructor.
Defined.

Lemma register_undeclared_throws_witness :
  registerInteractiveSessionProvider 1 "p2" true (constructor [p1])
  = (Throw {| message := "Provider p2 must be declared in the package.json." |},
     constructor [p1]).
Proof.
  apply (register_undeclared_throws 1 "p2" true (constructor [p1])).
  simpl. intros Hin. apply list_elem_of_singleton in Hin. discriminate Hin.
Defined.


End BridgeFacts.

(** ** More on the interactive-session bridge *)
Module BridgeMore.
Import Bridge BridgeFacts.
Local Open Scope bridge_scope.

(** X1.  Two (handle, session) pairs have the same key exactly when they are
    the same pair: different requests never share a slot of the
    callback map. *)
Theorem request_key_separates_pairs (h s h' s' : Z) :
  request_key h s = request_key h' s' <-> h = h' /\ s = s'.
Proof.
  split.
  - apply request_key_inj.
  - intros [-> ->]. reflexivity.
Qed.

Lemma find_declared (id : string)
    (providers : list IInteractiveSessionProviderContribution) :
  id ∈ contribution_id <$> providers ->
  exists registration,
    find (fun staticProvider => String.eqb (contribution_id staticProvider) id)
         providers = Some registration.
Proof.
  induction providers as [|c providers IH]; simpl.
  - intros H. apply elem_of_nil in H. contradiction.
  - intros H. destruct (String.eqb_spec (contribution_id c) id) as [Heq|Hne].
    + eexists. reflexivity.
    + apply elem_of_cons in H as [H|H]; [congruence | exact (IH H)].
Qed.

(** The bridge after the registration of a declared provider. *)
Lemma register_declared_run
    (handle : Z) (id : string) (implementsProgress : bool)
    (st : MainThreadInteractiveSession) :
  id ∈ contribution_id <$> registeredProviders st ->
  registerInteractiveSessionProvider handle id implementsProgress st
  = (Ok tt,
     snd (with_registrations (insert handle {| unregisters := id |})
            match _registrations st !! handle with
            | Some d =>
                log (Disposed d)
                    (log (RegisterProvider id implementsProgress handle) st)
            | None => log (RegisterProvider id implementsProgress handle) st
            end)).
Proof.
  intros Hin. destruct (find_declared id _ Hin) as [registration Hfind].
  unfold registerInteractiveSessionProvider, bind, read. rewrite Hfind.
  unfold DisposableMap_set, bind, read, perform. simpl.
  destruct (_registrations st !! handle); reflexivity.
Qed.

(** X2.  Registering a declared provider succeeds without any remote
    call: the service gets the provider, the registration map gets the
    disposable under the handle, and a disposable the handle had before
    is disposed.  The callback map is left alone. *)
Theorem register_declared_installs
    (handle : Z) (id : string) (implementsProgress : bool)
    (st : MainThreadInteractiveSession) :
  id ∈ contribution_id <$> registeredProviders st ->
  exists st',
    registerInteractiveSessionProvider handle id implementsProgress st
    = (Ok tt, st')
    /\ _registrations st' = <[handle := {| unregisters := id |}]> (_registrations st)
    /\ _inputRegistrations st' = _inputRegistrations st
    /\ _activeRequestProgressCallbacks st' = _activeRequestProgressCallbacks st
    /\ registeredProviders st' = registeredProviders st
    /\ effects st'
       = effects st ++ [RegisterProvider id implementsProgress handle]
         ++ match _registrations st !! handle with
            | Some d => [Disposed d]
            | None => []
            end.
Proof.
  intros Hin. rewrite (register_declared_run handle id implementsProgress st Hin).
  eexists. split; [reflexivity|].
  destruct (_registrations st !! handle) as [d|]; simpl.
  - rewrite <- app_assoc. repeat split; reflexivity.
  - repeat split; reflexivity.
Qed.

Lemma unregister_run (handle : Z) (st : MainThreadInteractiveSession) :
  unregisterInteractiveSessionProvider handle st
  = (Ok tt,
     snd (with_registrations (delete handle)
            match _registrations st !! handle with
            | Some d => log (Disposed d) st
            | None => st
            end)).
Proof.
  unfold unregisterInteractiveSessionProvider, DisposableMap_deleteAndDispose,
    bind, read, perform.
  destruct (_registrations st !! handle); reflexivity.
Qed.

(** X3.  Registering a declared provider under a fresh handle and then
    unregistering the handle gives the registration map back as it was;
    all that happened is the registration at the service and the
    disposal of what it returned. *)
Theorem register_then_unregister
    (handle : Z) (id : string) (implementsProgress : bool)
    (st : MainThreadInteractiveSession) :
  id ∈ contribution_id <$> registeredProviders st ->
  _registrations st !! handle = None ->
  let st1 := snd (registerInteractiveSessionProvider handle id implementsProgress st) in
  let st2 := snd (unregisterInteractiveSessionProvider handle st1) in
  _registrations st2 = _registrations st
  /\ _activeRequestProgressCallbacks st2 = _activeRequestProgressCallbacks st
  /\ effects st2
     = effects st ++ [RegisterProvider id implementsProgress handle;
                      Disposed {| unregisters := id |}].
Proof.
  intros Hin Hfresh st1 st2. unfold st2, st1.
  rewrite (register_declared_run handle id implementsProgress st Hin), Hfresh.
  rewrite unregister_run. simpl. rewrite lookup_insert_eq. simpl.
  rewrite delete_insert_id by exact Hfresh.
  rewrite <- app_assoc. repeat split; reflexivity.
Qed.

(** X4.  Unregistering is idempotent: once a handle is unregistered,
    unregistering it again changes nothing and disposes nothing. *)
Theorem unregister_twice (handle : Z) (st : MainThreadInteractiveSession) :
  let st1 := snd (unregisterInteractiveSessionProvider handle st) in
  unregisterInteractiveSessionProvider handle st1 = (Ok tt, st1).
Proof.
  intros st1. unfold st1. rewrite !unregister_run. simpl.
  destruct (_registrations st !! handle) as [d|]; simpl;
    rewrite lookup_delete_eq; simpl; rewrite delete_delete_eq;
    destruct st; reflexivity.
Qed.

Lemma dispose_all_run (values : list IDisposable)
    (st : MainThreadInteractiveSession) :
  DisposableMap_dispose_all values st
  = (Ok tt,
     {| _inputRegistrations := _inputRegistrations st;
        _registrations := _registrations st;
        _activeRequestProgressCallbacks := _activeRequestProgressCallbacks st;
        registeredProviders := registeredProviders st;
        effects := effects st ++ (Disposed <$> values) |}).
Proof.
  revert st. induction values as [|d values IH]; intros st; simpl.
  - rewrite app_nil_r. destruct st; reflexivity.
  - unfold bind, perform. rewrite IH. simpl.
    rewrite <- app_assoc. reflexivity.
Qed.

(** Disposing the bridge disposes every registration it holds, each
    once, and empties both registration maps; progress callbacks of
    requests in flight stay where they are. *)
Lemma dispose_releases_registrations (st : MainThreadInteractiveSession) :
  exists st',
    bridge_dispose st = (Ok tt, st')
    /\ _inputRegistrations st' = ∅
    /\ _registrations st' = ∅
    /\ _activeRequestProgressCallbacks st' = _activeRequestProgressCallbacks st
    /\ effects st'
       = effects st
         ++ (Disposed <$> (snd <$> map_to_list (_inputRegistrations st)))
         ++ (Disposed <$> (snd <$> map_to_list (_registrations st))).
Proof.
  unfold bridge_dispose, bind, read. rewrite dispose_all_run. simpl.
  rewrite dispose_all_run. simpl.
  eexists. split; [reflexivity|]. simpl.
  rewrite <- app_assoc. repeat split; reflexivity.
Qed.

(** X5.  Only the start and the settling of a [provideReply] call change the
    callback map or the calls in flight: registering, unregistering,
    progress delivery, session state, added requests, the other
    provider callbacks and the disposal of the bridge all leave both as
    they are. *)
Theorem only_replies_touch_callbacks (ev : Event) (sys : System) :
  is_reply_event ev = false ->
  _activeRequestProgressCallbacks (bridge (step ev sys))
  = _activeRequestProgressCallbacks (bridge sys)
  /\ inflight (step ev sys) = inflight sys.
Proof.
  intros Hev.
  assert (Hexec : forall A (m : M A), keeps_callbacks m ->
            _activeRequestProgressCallbacks (bridge (exec m sys))
            = _activeRequestProgressCallbacks (bridge sys)
            /\ inflight (exec m sys) = inflight sys).
  { intros A m Hm. split; [apply Hm | reflexivity]. }
  destruct ev; try discriminate Hev; unfold step; apply Hexec.
  - apply keeps_register.
  - apply keeps_unregister.
  - apply keeps_acceptProgress.
  - apply keeps_perform.
  - apply keeps_perform.
  - apply keeps_await.
  - apply keeps_perform.
  - apply keeps_await.
  - apply keeps_await.
  - apply keeps_await.
  - apply keeps_bridge_dispose.
Qed.

(** X7.  In a reachable state with no call in flight the callback map is
    empty: no callback outlives its request. *)
Theorem no_leaked_callbacks (sys : System) :
  reachable sys -> inflight sys = [] ->
  _activeRequestProgressCallbacks (bridge sys) = ∅.
Proof.
  intros Hreach Hnone. apply map_empty. intros key.
  destruct (_activeRequestProgressCallbacks (bridge sys) !! key)
    as [callback|] eqn:Hk; [exfalso | reflexivity].
  destruct (reachable_invariant sys Hreach) as [_ Hown].
  destruct (Hown key callback Hk) as (i & r & Hi & _).
  rewrite Hnone in Hi. rewrite lookup_nil in Hi. discriminate Hi.
Qed.

(** X8.  A reply that settles before anything else happens, for a pair whose
    key was free, leaves the bridge as it found it, but for the one
    remote call it made. *)
Theorem provideReply_is_scoped
    (handle : Z) (request : IInteractiveRequest) (progress : ProgressCallback)
    (token : CancellationToken)
    (answer : Outcome (option IInteractiveResponseDto))
    (st : MainThreadInteractiveSession) :
  _activeRequestProgressCallbacks st
    !! request_key handle (id (session request)) = None ->
  exists awaiting st1,
    provideReply handle request progress token st = (Ok awaiting, st1)
    /\ snd (resume awaiting answer st1)
       = log (ProxyCall
                (provideInteractiveReply_ handle (id (session request))
                   {| dto_message := request_message request |} token))
             st.
Proof.
  intros Hfree. eexists. eexists. split; [apply provideReply_run|].
  simpl. rewrite provideReply_resume_run. simpl.
  unfold update_callbacks, log. simpl.
  rewrite delete_insert_id by exact Hfree. reflexivity.
Qed.

(** A rejected remote call is rethrown to the caller of the provider
    callback, and the bridge is not changed by it: this holds for
    [prepareSession], [resolveRequest], [provideSuggestions] and
    [provideSlashCommands]. *)
Lemma rejections_propagate
    (handle : Z) (registration : IInteractiveSessionProviderContribution)
    (initialState : option string) (s : IInteractiveSession)
    (context : string) (token : CancellationToken) (e : Error)
    (st st' : MainThreadInteractiveSession) :
  (exists a, prepareSession handle registration initialState token st
             = (Ok a, log (ProxyCall (awaited a)) st)
             /\ resume a (Rejected e) st' = (Throw e, st'))
  /\ (exists a, resolveRequest handle s context token st
                = (Ok a, log (ProxyCall (awaited a)) st)
                /\ resume a (Rejected e) st' = (Throw e, st'))
  /\ (exists a, provideSuggestions handle token st
                = (Ok a, log (ProxyCall (awaited a)) st)
                /\ resume a (Rejected e) st' = (Throw e, st'))
  /\ (exists a, provideSlashCommands handle s token st
                = (Ok a, log (ProxyCall (awaited a)) st)
                /\ resume a (Rejected e) st' = (Throw e, st')).
Proof.
  split; [|split; [|split]].
  - exists {| awaited := prepareInteractiveSession_ handle initialState token;
              resume := prepareSession_resume registration |}.
    split; reflexivity.
  - eexists {| awaited := resolveInteractiveRequest_ handle (id s) context token |}.
    split; reflexivity.
  - exists {| awaited := provideInitialSuggestions_ handle token;
              resume := settled |}.
    split; reflexivity.
  - exists {| awaited := provideSlashCommands_ handle (id s) token;
              resume := settled |}.
    split; reflexivity.
Qed.

Lemma free_without_inflight (sys : System) (handle sessionId : Z) :
  reachable sys ->
  Forall (fun r => reply_for handle sessionId r = false) (inflight sys) ->
  _activeRequestProgressCallbacks (bridge sys) !! request_key handle sessionId
  = None.
Proof.
  intros Hreach Hnone.
  destruct (_activeRequestProgressCallbacks (bridge sys)
              !! request_key handle sessionId) as [callback|] eqn:Hk;
    [exfalso | reflexivity].
  destruct (reachable_invariant sys Hreach) as [_ Hown].
  destruct (Hown _ _ Hk) as (i & r & Hi & Hkey).
  apply request_key_inj in Hkey as [Hh Hs].
  assert (Hr : reply_for handle sessionId r = false)
    by (eapply (Forall_lookup_1 _ _ _ _ Hnone); exact Hi).
  unfold reply_for in Hr.
  rewrite !bool_decide_eq_true_2 in Hr by assumption. discriminate Hr.
Qed.

(** X9.  The life of one reply, end to end.  From a reachable state with no
    call in flight for the pair: the call starts, a progress delivery
    reaches its callback, the call settles, and a late progress delivery
    is dropped.  Afterwards the calls in flight and the callback map are
    as before, and the bridge has made one remote call and one callback
    call, in this order. *)
Theorem reply_lifecycle
    (sys : System) (handle : Z) (request : IInteractiveRequest)
    (callback : ProgressCallback) (token : CancellationToken)
    (early late : IInteractiveProgress)
    (answer : Outcome (option IInteractiveResponseDto)) :
  reachable sys ->
  Forall (fun r => reply_for handle (id (session request)) r = false)
         (inflight sys) ->
  let sessionId := id (session request) in
  let sys' :=
    run [ProvideReply handle request callback token;
         AcceptProgress handle sessionId early;
         SettleReply (List.length (inflight sys)) answer;
         AcceptProgress handle sessionId late]
        sys in
  inflight sys' = inflight sys
  /\ _activeRequestProgressCallbacks (bridge sys')
     = _activeRequestProgressCallbacks (bridge sys)
  /\ _registrations (bridge sys') = _registrations (bridge sys)
  /\ effects (bridge sys')
     = effects (bridge sys)
       ++ [ProxyCall (provideInteractiveReply_ handle sessionId
                        {| dto_message := request_message request |} token);
           ProgressReported callback early].
Proof.
  intros Hreach Hnone sessionId sys'.
  pose proof (free_without_inflight sys handle sessionId Hreach Hnone) as Hfree.
  unfold sys', run. cbn [foldl].
  set (key := request_key handle sessionId) in *.
  set (call := provideInteractiveReply_ handle sessionId
                 {| dto_message := request_message request |} token).
  set (r := {| reply_handle := handle; reply_request := request;
               reply_progress := callback;
               reply_awaiting := {| awaited := call;
                                    resume := provideReply_resume request key |} |}).
  set (st1 := log (ProxyCall call)
                (update_callbacks (insert key callback) (bridge sys))).
  assert (H1 : step (ProvideReply handle request callback token) sys
               = {| bridge := st1; inflight := inflight sys ++ [r] |}).
  { unfold step. rewrite provideReply_run. reflexivity. }
  rewrite H1.
  set (st2 := log (ProgressReported callback early) st1).
  assert (H2 : step (AcceptProgress handle sessionId early)
                 {| bridge := st1; inflight := inflight sys ++ [r] |}
               = {| bridge := st2; inflight := inflight sys ++ [r] |}).
  { unfold step, exec. cbn [bridge inflight].
    rewrite (acceptProgress_present handle sessionId early callback st1).
    - reflexivity.
    - apply lookup_insert_eq. }
  rewrite H2.
  set (st3 := update_callbacks (delete key) st2).
  assert (H3 : step (SettleReply (List.length (inflight sys)) answer)
                 {| bridge := st2; inflight := inflight sys ++ [r] |}
               = {| bridge := st3; inflight := inflight sys |}).
  { unfold step. cbn [bridge inflight].
    rewrite lookup_app_r by lia. rewrite Nat.sub_diag. cbn [lookup list_lookup].
    cbn [reply_awaiting resume r]. rewrite provideReply_resume_run.
    cbn [snd]. f_equal.
    rewrite (delete_middle (inflight sys) [] r). apply app_nil_r. }
  rewrite H3.
  assert (H4 : step (AcceptProgress handle sessionId late)
                 {| bridge := st3; inflight := inflight sys |}
               = {| bridge := st3; inflight := inflight sys |}).
  { unfold step, exec. cbn [bridge inflight].
    rewrite (acceptProgress_absent handle sessionId late st3).
    - reflexivity.
    - apply lookup_delete_eq. }
  rewrite H4. cbn [bridge inflight].
  split; [reflexivity|].
  unfold st3, st2, st1, update_callbacks, log. cbn.
  rewrite delete_insert_id by exact Hfree.
  rewrite <- app_assoc. repeat split; reflexivity.
Qed.

(** [m] leaves both registration maps as they are. *)
Definition keeps_registrations {A} (m : M A) : Prop :=
  forall st,
    _registrations (snd (m st)) = _registrations st
    /\ _inputRegistrations (snd (m st)) = _inputRegistrations st.

Lemma registrations_ret {A} (a : A) : keeps_registrations (ret a).
Proof. intros st. split; reflexivity. Qed.

Lemma registrations_throw {A} (e : Error) : keeps_registrations (@throw A e).
Proof. intros st. split; reflexivity. Qed.

Lemma registrations_read {A} (f : MainThreadInteractiveSession -> A) :
  keeps_registrations (read f).
Proof. intros st. split; reflexivity. Qed.

Lemma registrations_perform (e : Effect) : keeps_registrations (perform e).
Proof. intros st. split; reflexivity. Qed.

Lemma registrations_with_callbacks f : keeps_registrations (with_callbacks f).
Proof. intros st. split; reflexivity. Qed.

Lemma registrations_bind {A B} (m : M A) (k : A -> M B) :
  keeps_registrations m -> (forall a, keeps_registrations (k a)) ->
  keeps_registrations (bind m k).
Proof.
  intros Hm Hk st. unfold bind. specialize (Hm st).
  destruct (m st) as [[a|e] st1]; simpl in *.
  - destruct (Hk a st1) as [H1 H2]. destruct Hm as [H3 H4].
    split; congruence.
  - exact Hm.
Qed.

Lemma registrations_await {R A} (call : ExtHostCall) (k : Outcome R -> M A) :
  keeps_registrations (await call k).
Proof.
  apply registrations_bind;
    [apply registrations_perform | intros; apply registrations_ret].
Qed.

Lemma registrations_acceptProgress (handle sessionId : Z)
    (p : IInteractiveProgress) :
  keeps_registrations (acceptInteractiveResponseProgress handle sessionId p).
Proof.
  apply registrations_bind; [apply registrations_read|].
  intros [callback|]; [apply registrations_perform | apply registrations_ret].
Qed.

Lemma registrations_provideReply (handle : Z) (request : IInteractiveRequest)
    (progress : ProgressCallback) (token : CancellationToken) :
  keeps_registrations (provideReply handle request progress token).
Proof. intros st. rewrite provideReply_run. split; reflexivity. Qed.

Lemma registrations_provideReply_resume (request : IInteractiveRequest)
    (key : string) (answer : Outcome (option IInteractiveResponseDto)) :
  keeps_registrations (provideReply_resume request key answer).
Proof. intros st. rewrite provideReply_resume_run. split; reflexivity. Qed.

(** The events that register, unregister or dispose. *)
Definition is_registration_event (ev : Event) : bool :=
  match ev with
  | Register _ _ _ | Unregister _ | Dispose => true
  | _ => false
  end.

(** X6.  In a reachable state, only registering, unregistering and the
    disposal of the bridge change the registration maps: replies,
    progress and the other provider callbacks never unregister a
    provider. *)
Theorem only_registration_events_touch_registrations
    (ev : Event) (sys : System) :
  reachable sys ->
  is_registration_event ev = false ->
  _registrations (bridge (step ev sys)) = _registrations (bridge sys)
  /\ _inputRegistrations (bridge (step ev sys))
     = _inputRegistrations (bridge sys).
Proof.
  intros Hreach Hev.
  destruct ev; try discriminate Hev; unfold step.
  - apply registrations_acceptProgress.
  - apply registrations_perform.
  - apply registrations_perform.
  - apply registrations_await.
  - apply registrations_perform.
  - apply registrations_await.
  - pose proof (registrations_provideReply handle request progress token
                  (bridge sys)) as H.
    destruct (provideReply handle request progress token (bridge sys))
      as [[a|e] st]; exact H.
  - destruct (inflight sys !! n) as [r|] eqn:Hn; [|split; reflexivity].
    cbn [bridge].
    assert (Hr : resumes_own_key r).
    { destruct (reachable_invariant sys Hreach) as [Hall _].
      eapply Forall_lookup_1; eassumption. }
    rewrite Hr. apply registrations_provideReply_resume.
  - apply registrations_await.
  - apply registrations_await.
Qed.

(** *** Example runs *)

Definition one_reply_in_flight : System :=
  run [Register 2 "p1" true;
       ProvideReply 2 (request_in 7) first_callback token0]
      (initial [p1]).

Lemma register_declared_installs_witness :
  exists st',
    registerInteractiveSessionProvider 1 "p1" true (constructor [p1])
    = (Ok tt, st')
    /\ _registrations st' = <[1 := {| unregisters := "p1" |}]> ∅
    /\ effects st' = [RegisterProvider "p1" true 1].
Proof.
  destruct (register_declared_installs 1 "p1" true (constructor [p1]))
    as (st' & Hrun & Hreg & _ & _ & _ & Heff).
  - simpl. apply list_elem_of_singleton. reflexivity.
  - exists st'. split; [exact Hrun|]. split; [exact Hreg | exact Heff].
Defined.

Lemma register_then_unregister_witness :
  let st := constructor [p1] in
  let st1 := snd (registerInteractiveSessionProvider 1 "p1" true st) in
  let st2 := snd (unregisterInteractiveSessionProvider 1 st1) in
  _registrations st2 = _registrations st
  /\ _activeRequestProgressCallbacks st2 = _activeRequestProgressCallbacks st
  /\ effects st2
     = effects st ++ [RegisterProvider "p1" true 1;
                      Disposed {| unregisters := "p1" |}].
Proof.
  apply (register_then_unregister 1 "p1" true (constructor [p1])).
  - simpl. apply list_elem_of_singleton. reflexivity.
  - apply lookup_empty.
Defined.

Lemma only_replies_touch_callbacks_witness :
  _activeRequestProgressCallbacks (bridge (step (Unregister 2) one_reply_in_flight))
  = _activeRequestProgressCallbacks (bridge one_reply_in_flight)
  /\ inflight (step (Unregister 2) one_reply_in_flight)
     = inflight one_reply_in_flight.
Proof.
  apply (only_replies_touch_callbacks (Unregister 2) one_reply_in_flight).
  reflexivity.
Defined.

Lemma no_leaked_callbacks_witness :
  _activeRequestProgressCallbacks
    (bridge (step (SettleReply 0 (Rejected {| message := "cancelled" |}))
               one_reply_in_flight))
  = ∅.
Proof.
  apply no_leaked_callbacks.
  - exists [p1].
    exists [Register 2 "p1" true;
            ProvideReply 2 (request_in 7) first_callback token0;
            SettleReply 0 (Rejected {| message := "cancelled" |})].
    reflexivity.
  - reflexivity.
Defined.

Lemma provideReply_is_scoped_witness :
  exists awaiting st1,
    provideReply 2 (request_in 7) first_callback token0 (constructor [p1])
    = (Ok awaiting, st1)
    /\ snd (resume awaiting (Resolved None) st1)
       = log (ProxyCall (provideInteractiveReply_ 2 7
                           {| dto_message := "hello" |} token0))
             (constructor [p1]).
Proof.
  apply (provideReply_is_scoped 2 (request_in 7) first_callback token0
           (Resolved None) (constructor [p1])).
  apply lookup_empty.
Defined.

Lemma reply_lifecycle_witness :
  let sys := run [Register 2 "p1" true;
                  ProvideReply 2 (request_in 9) second_callback token0]
                 (initial [p1]) in
  let sys' :=
    run [ProvideReply 2 (request_in 7) first_callback token0;
         AcceptProgress 2 7 hi;
         SettleReply 1 (Resolved None);
         AcceptProgress 2 7 hi]
        sys in
  inflight sys' = inflight sys
  /\ _activeRequestProgressCallbacks (bridge sys')
     = _activeRequestProgressCallbacks (bridge sys)
  /\ _registrations (bridge sys') = _registrations (bridge sys)
  /\ effects (bridge sys')
     = effects (bridge sys)
       ++ [ProxyCall (provideInteractiveReply_ 2 7
                        {| dto_message := "hello" |} token0);
           ProgressReported first_callback hi].
Proof.
  apply (reply_lifecycle
           (run [Register 2 "p1" true;
                 ProvideReply 2 (request_in 9) second_callback token0]
                (initial [p1]))
           2 (request_in 7) first_callback token0 hi hi (Resolved None)).
  - exists [p1].
    exists [Register 2 "p1" true;
            ProvideReply 2 (request_in 9) second_callback token0].
    reflexivity.
  - repeat constructor.
Defined.

Lemma only_registration_events_touch_registrations_witness :
  _registrations
    (bridge (step (SettleReply 0 (Resolved None)) one_reply_in_flight))
  = _registrations (bridge one_reply_in_flight)
  /\ _inputRegistrations
       (bridge (step (SettleReply 0 (Resolved None)) one_reply_in_flight))
     = _inputRegistrations (bridge one_reply_in_flight).
Proof.
  apply (only_registration_events_touch_registrations
           (SettleReply 0 (Resolved None)) one_reply_in_flight).
  - exists [p1].
    exists [Register 2 "p1" true;
            ProvideReply 2 (request_in 7) first_callback token0].
    reflexivity.
  - reflexivity.
Defined.

End BridgeMore.

(** ** More on the hover controller *)
Module HoverMore.
Import Hover HoverFacts.

Ltac split_ifs :=
  repeat match goal with
         | |- context [if ?b then _ else _] => destruct b eqn:?
         | |- context [match ?x with Some _ => _ | None => _ end] =>
             destruct x eqn:?
         end.

(** X10.  Hiding twice is hiding once. *)
Theorem hideWidgets_idempotent (dropDownVisible : bool)
    (c : ModesHoverController) :
  _hideWidgets dropDownVisible (_hideWidgets dropDownVisible c)
  = _hideWidgets dropDownVisible c.
Proof.
  destruct ((_isMouseDown c && _hoverClicked c && isColorPickerVisible c)
            || dropDownVisible) eqn:G.
  - rewrite (hideWidgets_suppressed _ c G).
    apply (hideWidgets_suppressed _ c G).
  - apply orb_false_iff in G as [G ->].
    destruct c as [[[v k p]|] [g|] md hc en st]; destruct md, hc;
      try destruct p; try discriminate G; reflexivity.
Qed.

(** Which widgets exist, and the two hover options, after hiding. *)
Lemma hideWidgets_frame (dd : bool) (c : ModesHoverController) :
  (is_Some (_contentWidget (_hideWidgets dd c)) <-> is_Some (_contentWidget c))
  /\ (is_Some (_glyphWidget (_hideWidgets dd c)) <-> is_Some (_glyphWidget c))
  /\ _isHoverEnabled (_hideWidgets dd c) = _isHoverEnabled c
  /\ _isHoverSticky (_hideWidgets dd c) = _isHoverSticky c
  /\ _isMouseDown (_hideWidgets dd c) = _isMouseDown c.
Proof.
  unfold _hideWidgets.
  destruct ((_isMouseDown c && _hoverClicked c && isColorPickerVisible c) || dd);
    simpl; rewrite ?fmap_is_Some; tauto.
Qed.

(** Hiding never makes a widget visible. *)
Lemma hideWidgets_shows_nothing (dd : bool) (c : ModesHoverController) :
  (isHoverVisible (_hideWidgets dd c) = true -> isHoverVisible c = true)
  /\ (isGlyphVisible (_hideWidgets dd c) = true -> isGlyphVisible c = true)
  /\ (_hoverClicked (_hideWidgets dd c) = true -> _hoverClicked c = true).
Proof.
  unfold _hideWidgets.
  destruct ((_isMouseDown c && _hoverClicked c && isColorPickerVisible c) || dd);
    [tauto|].
  unfold isHoverVisible, isGlyphVisible. simpl.
  destruct (_contentWidget c), (_glyphWidget c); simpl;
    repeat split; intros; congruence.
Qed.

(** [c'] shows and holds no more than [c] does, under the same hover
    options. *)
Definition quieter (c c' : ModesHoverController) : Prop :=
  (isHoverVisible c' = true -> isHoverVisible c = true)
  /\ (isGlyphVisible c' = true -> isGlyphVisible c = true)
  /\ (is_Some (_contentWidget c') <-> is_Some (_contentWidget c))
  /\ (is_Some (_glyphWidget c') <-> is_Some (_glyphWidget c))
  /\ _isHoverEnabled c' = _isHoverEnabled c
  /\ _isHoverSticky c' = _isHoverSticky c.

Lemma quieter_refl (c : ModesHoverController) : quieter c c.
Proof. unfold quieter. tauto. Qed.

Lemma quieter_trans (c1 c2 c3 : ModesHoverController) :
  quieter c1 c2 -> quieter c2 c3 -> quieter c1 c3.
Proof. unfold quieter. intros H1 H2. intuition congruence. Qed.

Lemma hideWidgets_quieter (dd : bool) (c : ModesHoverController) :
  quieter c (_hideWidgets dd c).
Proof.
  pose proof (hideWidgets_frame dd c). pose proof (hideWidgets_shows_nothing dd c).
  unfold quieter. tauto.
Qed.

Lemma set_isMouseDown_quieter (b : bool) (c : ModesHoverController) :
  quieter c (set_isMouseDown b c).
Proof. unfold quieter, isHoverVisible, isGlyphVisible. simpl. tauto. Qed.

Lemma set_hoverClicked_quieter (b : bool) (c : ModesHoverController) :
  quieter c (set_hoverClicked b c).
Proof. unfold quieter, isHoverVisible, isGlyphVisible. simpl. tauto. Qed.

Lemma mouseDown_quieter (dd : bool) (e : IEditorMouseEvent)
    (c : ModesHoverController) :
  quieter c (_onEditorMouseDown dd e c).
Proof.
  unfold _onEditorMouseDown.
  pose proof (set_isMouseDown_quieter true c) as H1.
  destruct (is_widget CONTENT_WIDGET ContentHoverWidget_ID (target e)).
  { eapply quieter_trans; [exact H1 | apply set_hoverClicked_quieter]. }
  destruct (is_widget OVERLAY_WIDGET MarginHoverWidget_ID (target e));
    [exact H1|].
  destruct (negb (MouseTargetType_eqb (type (target e)) OVERLAY_WIDGET)).
  - eapply quieter_trans; [exact H1|].
    eapply quieter_trans; [apply set_hoverClicked_quieter|].
    apply hideWidgets_quieter.
  - eapply quieter_trans; [exact H1 | apply hideWidgets_quieter].
Qed.

Lemma mouseLeave_quieter (dd inside : bool) (c : ModesHoverController) :
  quieter c (_onEditorMouseLeave dd inside c).
Proof.
  unfold _onEditorMouseLeave.
  destruct (match _contentWidget c with Some _ => inside | None => false end);
    [apply quieter_refl | apply hideWidgets_quieter].
Qed.

Lemma keyDown_quieter (dd hasModel : bool) (e : IKeyboardEvent)
    (c : ModesHoverController) :
  quieter c (_onKeyDown dd hasModel e c).
Proof.
  unfold _onKeyDown. destruct (negb hasModel); [apply quieter_refl|].
  match goal with
  | |- quieter c (if ?b then _ else _) => destruct b
  end; [apply hideWidgets_quieter | apply quieter_refl].
Qed.

Lemma scroll_quieter (dd top left : bool) (c : ModesHoverController) :
  quieter c (_onEditorScrollChanged dd top left c).
Proof.
  unfold _onEditorScrollChanged.
  destruct (top || left); [apply hideWidgets_quieter | apply quieter_refl].
Qed.

Section Events.
Variable maybeShowAt :
  IEditorMouseEvent -> ContentHoverController -> bool * ContentHoverController.

(** The events that can bring a widget up. *)
Definition may_show (ev : EditorEvent) : bool :=
  match ev with
  | MouseMove _ | ShowContentHover _ => true
  | _ => false
  end.

(** X11.  A hover only comes up on a mouse-move or on the show command:
    after any other event -- mouse-down, mouse-up, mouse-leave,
    key-down, scrolling, a new model, a change of the hover options -- a
    widget is visible only if it was visible before, and a widget exists
    only if it existed before. *)
Theorem only_move_and_show_bring_up (ev : EditorEvent) (ed : Editor) :
  may_show ev = false ->
  let c := hover ed in
  let c' := hover (dispatch maybeShowAt ev ed) in
  (isHoverVisible c' = true -> isHoverVisible c = true)
  /\ (isGlyphVisible c' = true -> isGlyphVisible c = true)
  /\ (is_Some (_contentWidget c') <-> is_Some (_contentWidget c))
  /\ (is_Some (_glyphWidget c') <-> is_Some (_glyphWidget c)).
Proof.
  intros Hev c c'.
  assert (H : quieter c c' \/ exists enabled sticky,
                c' = _hookEvents enabled sticky c).
  { subst c c'. destruct ev; try discriminate Hev; cbn [dispatch hover].
    - left. destruct (_isHoverEnabled (hover ed));
        [apply mouseDown_quieter | apply quieter_refl].
    - left. destruct (_isHoverEnabled (hover ed));
        [apply set_isMouseDown_quieter | apply quieter_refl].
    - left. apply mouseLeave_quieter.
    - left. apply keyDown_quieter.
    - left. apply scroll_quieter.
    - left. apply hideWidgets_quieter.
    - right. exists enabled, sticky. reflexivity.
    - left. apply quieter_refl. }
  destruct H as [H | (enabled & sticky & ->)].
  - unfold quieter in H. tauto.
  - unfold isHoverVisible, isGlyphVisible. simpl. tauto.
Qed.

(** What a mouse-move leaves alone: the flags of the controller, and
    the widgets that exist. *)
Lemma mouseMove_frame (dd : bool) (e : IEditorMouseEvent)
    (c : ModesHoverController) :
  let c' := _onEditorMouseMove maybeShowAt dd e c in
  _isHoverEnabled c' = _isHoverEnabled c
  /\ _isHoverSticky c' = _isHoverSticky c
  /\ _isMouseDown c' = _isMouseDown c
  /\ (_hoverClicked c' = true -> _hoverClicked c = true)
  /\ (is_Some (_contentWidget c) -> is_Some (_contentWidget c'))
  /\ (is_Some (_glyphWidget c) -> is_Some (_glyphWidget c')).
Proof.
  unfold _onEditorMouseMove.
  repeat match goal with
         | |- context [if ?b then c else _] => destruct b; [tauto|]
         end.
  pose proof (hideWidgets_frame dd c) as Hf.
  pose proof (hideWidgets_shows_nothing dd c) as Hs.
  destruct (negb (_isHoverEnabled c)); [simpl; tauto|].
  destruct (_getOrCreateContentWidget c) as [w c1] eqn:Hget.
  assert (Hc1 : _isHoverEnabled c1 = _isHoverEnabled c
                /\ _isHoverSticky c1 = _isHoverSticky c
                /\ _isMouseDown c1 = _isMouseDown c
                /\ _hoverClicked c1 = _hoverClicked c
                /\ _glyphWidget c1 = _glyphWidget c).
  { unfold _getOrCreateContentWidget in Hget.
    destruct (_contentWidget c); inversion Hget; subst; simpl; tauto. }
  destruct Hc1 as (He & Hst & Hmd & Hhc & Hg).
  destruct (maybeShowAt e w) as [shown w'].
  set (c2 := set_contentWidget (Some w') c1).
  pose proof (hideWidgets_frame dd c2) as Hf2.
  pose proof (hideWidgets_shows_nothing dd c2) as Hs2.
  assert (Hsome : forall A (x : A), is_Some (Some x)) by (intros; eexists; reflexivity).
  destruct shown.
  { simpl. rewrite He, Hst, Hmd, Hhc, Hg, fmap_is_Some.
    repeat split; auto. }
  destruct (type (target e)), (position (target e));
    try (simpl in Hf2, Hs2; rewrite He, Hst, Hmd, Hhc, Hg in *;
         repeat split; try tauto; intros _; apply Hf2; apply Hsome).
  simpl. rewrite He, Hst, Hmd, Hhc. repeat split; auto.
Qed.

(** X12.  Widgets are created once and kept: whatever happens, a widget that
    exists still exists afterwards. *)
Theorem widgets_are_kept (ev : EditorEvent) (ed : Editor) :
  (is_Some (_contentWidget (hover ed)) ->
   is_Some (_contentWidget (hover (dispatch maybeShowAt ev ed))))
  /\ (is_Some (_glyphWidget (hover ed)) ->
      is_Some (_glyphWidget (hover (dispatch maybeShowAt ev ed)))).
Proof.
  assert (Hq : forall c', quieter (hover ed) c' ->
                 (is_Some (_contentWidget (hover ed)) -> is_Some (_contentWidget c'))
                 /\ (is_Some (_glyphWidget (hover ed)) -> is_Some (_glyphWidget c'))).
  { intros c' H. unfold quieter in H. tauto. }
  destruct ev; cbn [dispatch hover].
  - apply Hq. destruct (_isHoverEnabled (hover ed));
      [apply mouseDown_quieter | apply quieter_refl].
  - apply Hq. destruct (_isHoverEnabled (hover ed));
      [apply set_isMouseDown_quieter | apply quieter_refl].
  - pose proof (mouseMove_frame (dropDownVisible ed) e (hover ed)) as Hm.
    cbv zeta in Hm. tauto.
  - apply Hq, mouseLeave_quieter.
  - apply Hq, keyDown_quieter.
  - apply Hq, scroll_quieter.
  - apply Hq, hideWidgets_quieter.
  - simpl. tauto.
  - unfold showContentHover, _getOrCreateContentWidget.
    destruct (_contentWidget (hover ed)); simpl; split; auto;
      intros _; eexists; reflexivity.
  - tauto.
Qed.

(** X13.  The two hover options change only when the configuration
    changes: every other event leaves [_isHoverEnabled] and
    [_isHoverSticky] as they are. *)
Theorem options_change_with_configuration_only (ev : EditorEvent) (ed : Editor) :
  (forall enabled sticky, ev <> HoverOptionChange enabled sticky) ->
  _isHoverEnabled (hover (dispatch maybeShowAt ev ed)) = _isHoverEnabled (hover ed)
  /\ _isHoverSticky (hover (dispatch maybeShowAt ev ed)) = _isHoverSticky (hover ed).
Proof.
  intros Hev.
  assert (Hq : forall c', quieter (hover ed) c' ->
                 _isHoverEnabled c' = _isHoverEnabled (hover ed)
                 /\ _isHoverSticky c' = _isHoverSticky (hover ed)).
  { intros c' H. unfold quieter in H. tauto. }
  destruct ev; cbn [dispatch hover].
  - apply Hq. destruct (_isHoverEnabled (hover ed));
      [apply mouseDown_quieter | apply quieter_refl].
  - apply Hq. destruct (_isHoverEnabled (hover ed));
      [apply set_isMouseDown_quieter | apply quieter_refl].
  - pose proof (mouseMove_frame (dropDownVisible ed) e (hover ed)) as Hm.
    cbv zeta in Hm. tauto.
  - apply Hq, mouseLeave_quieter.
  - apply Hq, keyDown_quieter.
  - apply Hq, scroll_quieter.
  - apply Hq, hideWidgets_quieter.
  - exfalso. eapply Hev. reflexivity.
  - unfold showContentHover, _getOrCreateContentWidget.
    destruct (_contentWidget (hover ed)); simpl; tauto.
  - tauto.
Qed.

(** X14.  With the hover disabled, a mouse-move brings nothing up: a widget
    that is visible afterwards was visible before. *)
Theorem disabled_move_shows_nothing (dropDownVisible : bool)
    (e : IEditorMouseEvent) (c : ModesHoverController) :
  _isHoverEnabled c = false ->
  let c' := _onEditorMouseMove maybeShowAt dropDownVisible e c in
  (isHoverVisible c' = true -> isHoverVisible c = true)
  /\ (isGlyphVisible c' = true -> isGlyphVisible c = true).
Proof.
  intros Hoff. unfold _onEditorMouseMove.
  repeat match goal with
         | |- context [if ?b then c else _] => destruct b; [tauto|]
         end.
  rewrite Hoff. simpl.
  pose proof (hideWidgets_shows_nothing dropDownVisible c). tauto.
Qed.

(** Mouse-moves, and the inline-suggestion dropdown opening or
    closing in between. *)
Definition is_move (ev : EditorEvent) : bool :=
  match ev with
  | MouseMove _ | DropDownChange _ => true
  | _ => false
  end.

(** X15.  A click inside the content hover pins it: in an editor whose
    hover is enabled, so that the mouse-down reaches the controller,
    after a mouse-down event on the content hover widget the mouse-move
    events that follow change nothing in the controller, whether the
    inline-suggestion dropdown opens or closes in between, and the
    mouse-down itself leaves both widgets as they are.  The events go
    through the subscriptions of [_hookEvents]. *)
Theorem click_inside_hover_pins_it
    (down : IEditorMouseEvent) (evs : list EditorEvent) (ed : Editor) :
  _isHoverEnabled (hover ed) = true ->
  is_widget CONTENT_WIDGET ContentHoverWidget_ID (target down) = true ->
  forallb is_move evs = true ->
  let ed1 := dispatch maybeShowAt (MouseDown down) ed in
  hover (run maybeShowAt evs ed1) = hover ed1
  /\ _contentWidget (hover ed1) = _contentWidget (hover ed)
  /\ _glyphWidget (hover ed1) = _glyphWidget (hover ed).
Proof.
  intros Hen Hdown Hevs ed1.
  assert (Hc1 : hover ed1
                = set_hoverClicked true (set_isMouseDown true (hover ed))).
  { unfold ed1. cbn [dispatch hover]. rewrite Hen.
    unfold _onEditorMouseDown. rewrite Hdown. reflexivity. }
  split; [|rewrite Hc1; split; reflexivity].
  assert (Hpin : forall ed', hover ed' = hover ed1 ->
                             hover (run maybeShowAt evs ed') = hover ed1).
  { revert Hevs. induction evs as [|ev evs IH]; intros Hevs ed' H; [exact H|].
    cbn [forallb] in Hevs. apply andb_true_iff in Hevs as [Hev Hevs].
    unfold run. cbn [foldl]. apply (IH Hevs).
    destruct ev; try discriminate Hev; cbn [dispatch hover].
    - unfold _onEditorMouseMove. rewrite H, Hc1. reflexivity.
    - exact H. }
  apply Hpin. reflexivity.
Qed.

(** X16.  Moving over a position of the glyph margin, with the hover enabled
    and not sticky, no pinned click and nothing for the content widget
    to show, hides the content hover and starts the glyph hover at the
    line -- also while the inline-suggestion dropdown is open, since
    this branch does not go through the guarded hide. *)
Theorem glyph_margin_move_shows_glyph (dropDownVisible : bool)
    (e : IEditorMouseEvent) (pos : Position) (c : ModesHoverController) :
  _isHoverEnabled c = true ->
  _isHoverSticky c = false ->
  _isMouseDown c && _hoverClicked c = false ->
  type (target e) = GUTTER_GLYPH_MARGIN ->
  position (target e) = Some pos ->
  (forall w, fst (maybeShowAt e w) = false) ->
  let c' := _onEditorMouseMove maybeShowAt dropDownVisible e c in
  isHoverVisible c' = false
  /\ _glyphWidget c' = Some (MarginHoverWidget_startShowingAt (lineNumber pos)).
Proof.
  intros Hen Hst Hdown Htype Hpos Hdecl.
  unfold _onEditorMouseMove, is_widget.
  rewrite Hdown, Hst, Hen, Htype, Hpos. simpl.
  destruct (_getOrCreateContentWidget c) as [w c1].
  specialize (Hdecl w). destruct (maybeShowAt e w) as [shown w'].
  simpl in Hdecl. subst shown. split; reflexivity.
Qed.

(** A modifier key, the start of a chord, and the show-or-focus command
    while the hover is visible leave the controller as it is. *)
Lemma keys_that_keep_the_hover (dropDownVisible hasModel : bool)
    (e : IKeyboardEvent) (c : ModesHoverController) :
  is_modifier (keyCode e) = true
  \/ (exists r, softDispatch e = Some r
                /\ (enterMultiChord r = true
                    \/ (commandId r = Some "editor.action.showOrFocusHover"
                        /\ isHoverVisible c = true))) ->
  _onKeyDown dropDownVisible hasModel e c = c.
Proof.
  intros H. unfold _onKeyDown. destruct hasModel; [|reflexivity]. simpl.
  destruct H as [Hmod | (r & Hr & [Hchord | [Hcmd Hvis]])].
  - rewrite Hmod. reflexivity.
  - rewrite Hr, Hchord. simpl. rewrite andb_false_r. reflexivity.
  - rewrite Hr, Hcmd, Hvis. simpl. rewrite orb_true_r, andb_false_r.
    reflexivity.
Qed.

(** X17.  Typing hides the hover: a key that is no modifier and resolves to no
    keybinding hides both widgets, when the editor has a model and the
    hide is not suppressed. *)
Theorem typing_hides_hover (e : IKeyboardEvent) (c : ModesHoverController) :
  is_modifier (keyCode e) = false ->
  softDispatch e = None ->
  _isMouseDown c && _hoverClicked c && isColorPickerVisible c = false ->
  both_hidden (_onKeyDown false true e c)
  /\ _hoverClicked (_onKeyDown false true e c) = false.
Proof.
  intros Hmod Hnone Hguard. unfold _onKeyDown. rewrite Hmod, Hnone. simpl.
  destruct (hideWidgets_performed false c) as (H1 & H2 & _).
  - rewrite Hguard. reflexivity.
  - split; assumption.
Qed.

(** What one event does to a disabled controller. *)
Lemma disabled_step (ev : EditorEvent) (ed : Editor) :
  (forall enabled sticky, ev <> HoverOptionChange enabled sticky) ->
  _isHoverEnabled (hover ed) = false ->
  let c' := hover (dispatch maybeShowAt ev ed) in
  _isHoverEnabled c' = false
  /\ _isMouseDown c' = _isMouseDown (hover ed)
  /\ (_hoverClicked c' = true -> _hoverClicked (hover ed) = true).
Proof.
  intros Hev Hoff c'. unfold c'. clear c'.
  pose proof (hideWidgets_frame (dropDownVisible ed) (hover ed)) as Hf.
  pose proof (hideWidgets_shows_nothing (dropDownVisible ed) (hover ed)) as Hs.
  rewrite Hoff in Hf.
  destruct ev; cbn [dispatch hover].
  - rewrite Hoff. tauto.
  - rewrite Hoff. tauto.
  - pose proof (mouseMove_frame (dropDownVisible ed) e (hover ed)) as Hm.
    cbv zeta in Hm. rewrite Hoff in Hm. tauto.
  - unfold _onEditorMouseLeave. split_ifs; tauto.
  - unfold _onKeyDown. split_ifs; tauto.
  - unfold _onEditorScrollChanged. split_ifs; tauto.
  - tauto.
  - exfalso. eapply Hev. reflexivity.
  - unfold showContentHover, _getOrCreateContentWidget.
    destruct (_contentWidget (hover ed)); simpl; tauto.
  - tauto.
Qed.

Definition is_option_change (ev : EditorEvent) : bool :=
  match ev with
  | HoverOptionChange _ _ => true
  | _ => false
  end.

(** X18.  While the hover is disabled the controller does not follow the mouse
    buttons: as long as the options do not change, [_isMouseDown] keeps
    the value it had when the hover was disabled, and [_hoverClicked] is
    never set. *)
Theorem disabled_hover_ignores_buttons (evs : list EditorEvent) (ed : Editor) :
  forallb (fun ev => negb (is_option_change ev)) evs = true ->
  _isHoverEnabled (hover ed) = false ->
  let c' := hover (run maybeShowAt evs ed) in
  _isHoverEnabled c' = false
  /\ _isMouseDown c' = _isMouseDown (hover ed)
  /\ (_hoverClicked c' = true -> _hoverClicked (hover ed) = true).
Proof.
  revert ed. induction evs as [|ev evs IH]; intros ed Hevs Hoff.
  - simpl. tauto.
  - simpl in Hevs. apply andb_true_iff in Hevs as [Hev Hevs].
    assert (Hne : forall enabled sticky, ev <> HoverOptionChange enabled sticky).
    { intros enabled sticky ->. discriminate Hev. }
    destruct (disabled_step ev ed Hne Hoff) as (H1 & H2 & H3).
    specialize (IH (dispatch maybeShowAt ev ed) Hevs H1).
    cbv zeta in IH. destruct IH as (I1 & I2 & I3).
    unfold run. cbn [foldl]. fold (run maybeShowAt evs (dispatch maybeShowAt ev ed)).
    split; [exact I1|]. split; [congruence|]. auto.
Qed.

End Events.

(** *** Example inputs *)

(** The editor with the content hover shown from the keyboard. *)
Definition hover_shown : Editor :=
  run nothing_to_show [ShowContentHover Keyboard] (initial true false).

Definition disabled_with_hover : Editor :=
  run nothing_to_show [ShowContentHover Keyboard] (initial false false).

Definition letter_a : IKeyboardEvent :=
  {| keyCode := OtherKey 31; softDispatch := None |}.

Definition shift_key : IKeyboardEvent :=
  {| keyCode := Shift; softDispatch := None |}.

Lemma only_move_and_show_bring_up_witness :
  let c := hover hover_shown in
  let c' := hover (dispatch nothing_to_show (KeyDown true letter_a) hover_shown) in
  (isHoverVisible c' = true -> isHoverVisible c = true)
  /\ (isGlyphVisible c' = true -> isGlyphVisible c = true)
  /\ (is_Some (_contentWidget c') <-> is_Some (_contentWidget c))
  /\ (is_Some (_glyphWidget c') <-> is_Some (_glyphWidget c)).
Proof.
  apply (only_move_and_show_bring_up nothing_to_show (KeyDown true letter_a)
           hover_shown).
  reflexivity.
Defined.

Lemma options_change_with_configuration_only_witness :
  _isHoverEnabled (hover (dispatch nothing_to_show ModelChange hover_shown))
  = _isHoverEnabled (hover hover_shown)
  /\ _isHoverSticky (hover (dispatch nothing_to_show ModelChange hover_shown))
     = _isHoverSticky (hover hover_shown).
Proof.
  apply (options_change_with_configuration_only nothing_to_show ModelChange
           hover_shown).
  intros enabled sticky H. discriminate H.
Defined.

Lemma disabled_move_shows_nothing_witness :
  let c := hover disabled_with_hover in
  let c' := _onEditorMouseMove nothing_to_show false over_empty_content c in
  (isHoverVisible c' = true -> isHoverVisible c = true)
  /\ (isGlyphVisible c' = true -> isGlyphVisible c = true).
Proof.
  apply (disabled_move_shows_nothing nothing_to_show false over_empty_content
           (hover disabled_with_hover)).
  reflexivity.
Defined.

Lemma click_inside_hover_pins_it_witness :
  let ed1 := dispatch nothing_to_show (MouseDown over_content_hover)
                      hover_shown in
  hover (run nothing_to_show
             [MouseMove over_empty_content; DropDownChange true;
              MouseMove over_glyph_margin] ed1)
  = hover ed1
  /\ _contentWidget (hover ed1) = _contentWidget (hover hover_shown)
  /\ _glyphWidget (hover ed1) = _glyphWidget (hover hover_shown).
Proof.
  apply (click_inside_hover_pins_it nothing_to_show over_content_hover
           [MouseMove over_empty_content; DropDownChange true;
            MouseMove over_glyph_margin]
           hover_shown).
  - reflexivity.
  - reflexivity.
  - reflexivity.
Defined.

Lemma glyph_margin_move_shows_glyph_witness :
  let c' := _onEditorMouseMove nothing_to_show true over_glyph_margin
              (hover hover_shown) in
  isHoverVisible c' = false
  /\ _glyphWidget c' = Some (MarginHoverWidget_startShowingAt 3).
Proof.
  apply (glyph_margin_move_shows_glyph nothing_to_show true over_glyph_margin
           {| lineNumber := 3; column := 1 |} (hover hover_shown)).
  - reflexivity.
  - reflexivity.
  - reflexivity.
  - reflexivity.
  - reflexivity.
  - intros w. reflexivity.
Defined.

Lemma keys_that_keep_the_hover_witness :
  _onKeyDown false true shift_key (hover hover_shown) = hover hover_shown.
Proof.
  apply (keys_that_keep_the_hover false true shift_key (hover hover_shown)).
  left. reflexivity.
Defined.

Lemma typing_hides_hover_witness :
  both_hidden (_onKeyDown false true letter_a (hover hover_shown))
  /\ _hoverClicked (_onKeyDown false true letter_a (hover hover_shown)) = false.
Proof.
  apply (typing_hides_hover letter_a (hover hover_shown)).
  - reflexivity.
  - reflexivity.
  - reflexivity.
Defined.

Lemma disabled_hover_ignores_buttons_witness :
  let evs := [MouseDown over_content_hover; MouseMove over_empty_content;
              MouseUp; KeyDown true letter_a] in
  let c' := hover (run nothing_to_show evs disabled_with_hover) in
  _isHoverEnabled c' = false
  /\ _isMouseDown c' = _isMouseDown (hover disabled_with_hover)
  /\ (_hoverClicked c' = true -> _hoverClicked (hover disabled_with_hover) = true).
Proof.
  apply (disabled_hover_ignores_buttons nothing_to_show
           [MouseDown over_content_hover; MouseMove over_empty_content;
            MouseUp; KeyDown true letter_a]
           disabled_with_hover).
  - reflexivity.
  - reflexivity.
Defined.

End HoverMore.

(** ** More on the screencast settings *)
Module ScreencastMore.
Import JsNumber Screencast ScreencastFacts.

(** All four settings of the overlay are inside their ranges. *)
Definition in_ranges (o : Overlay) : Prop :=
  within 20 100 (mouseIndicatorSize o)
  /\ within 20 100 (keyboardFontSize o)
  /\ within 0 90 (keyboardBottom o)
  /\ within 500 5000 (keyboardMarkerTimeout o).

Lemma run_updates_in_ranges (cfg : gmap string JsValue.t) (o : Overlay) :
  readable (fun _ => true) cfg -> in_ranges (run_updates cfg o).
Proof.
  intros Hread.
  destruct (readable_keys _ _ Hread) as (H1 & H2 & H3 & H4).
  unfold in_ranges. simpl. split; [|split; [|split]].
  - apply (clamp_within _ 20 100); [lia | apply or_else_not_NaN; auto].
  - apply (clamp_within _ 20 100); [lia | apply or_else_not_NaN; auto].
  - apply (clamp_within _ 0 90); [lia | apply or_else_not_NaN; auto].
  - apply (clamp_within _ 500 5000); [lia | apply or_else_not_NaN; auto].
Qed.

Lemma change_in_ranges (cfg : gmap string JsValue.t)
    (affects : string -> bool) (o : Overlay) :
  readable affects cfg ->
  in_ranges o -> in_ranges (onDidChangeConfiguration cfg affects o).
Proof.
  intros Hread (H1 & H2 & H3 & H4).
  destruct (readable_keys _ _ Hread) as (R1 & R2 & R3 & R4).
  unfold onDidChangeConfiguration, in_ranges.
  destruct (affects "screencastMode.verticalOffset"),
           (affects "screencastMode.fontSize"),
           (affects "screencastMode.keyboardOverlayTimeout"),
           (affects "screencastMode.mouseIndicatorSize"); simpl;
    repeat match goal with
           | |- _ /\ _ => split
           | |- within _ _ (clamp _ _ _) =>
               first [ apply (clamp_within _ 20 100)
                     | apply (clamp_within _ 0 90)
                     | apply (clamp_within _ 500 5000) ];
               [lia | apply or_else_not_NaN; auto]
           | |- _ => assumption
           end.
Qed.

(** X19.  While screencast mode is on, the settings stay inside their
    ranges: after the updates of [run] and any number of configuration
    changes, whatever they affect, as long as every setting that an
    update reads holds, at that time, a value that converts to a number
    or is falsy.  (A truthy value that converts to no number ends as
    [NaN].) *)
Theorem settings_stay_in_ranges
    (configurationService : gmap string JsValue.t) (o : Overlay)
    (changes : list (gmap string JsValue.t * (string -> bool))) :
  readable (fun _ => true) configurationService ->
  Forall (fun change => readable (snd change) (fst change)) changes ->
  in_ranges
    (foldl (fun o change => onDidChangeConfiguration (fst change) (snd change) o)
           (run_updates configurationService o) changes).
Proof.
  intros Hread Hchanges.
  assert (H : in_ranges (run_updates configurationService o))
    by (apply run_updates_in_ranges; exact Hread).
  revert H. generalize (run_updates configurationService o).
  induction Hchanges as [|change changes Hchange _ IH]; intros o' H; simpl.
  - exact H.
  - apply IH. apply change_in_ranges; assumption.
Qed.

(** Two changes: the font size is set above its range, then the timeout
    to a text that is no number while only the font size is announced
    as affected. *)
Definition two_changes : list (gmap string JsValue.t * (string -> bool)) :=
  [ ({[ "screencastMode.fontSize" := JsValue.of_Z 150 ]}, fun _ => true);
    ({[ "screencastMode.fontSize" := JsValue.of_Z 150;
        "screencastMode.keyboardOverlayTimeout" := JsValue.Text "slow" NaN ]},
     String.eqb "screencastMode.fontSize") ].

Lemma settings_stay_in_ranges_witness :
  readable (fun _ => true) ∅
  /\ Forall (fun change => readable (snd change) (fst change)) two_changes
  /\ in_ranges
       (foldl (fun o change =>
                 onDidChangeConfiguration (fst change) (snd change) o)
              (run_updates ∅ blank) two_changes).
Proof.
  assert (H0 : readable (fun _ => true) (∅ : gmap string JsValue.t)).
  { apply numbers_readable. intros key v _ Hv.
    rewrite lookup_empty in Hv. discriminate. }
  assert (H2 : Forall (fun change => readable (snd change) (fst change))
                      two_changes).
  { unfold two_changes.
    apply List.Forall_cons; [|apply List.Forall_cons; [|apply List.Forall_nil]].
    - apply numbers_readable. cbn [fst snd]. intros key v _ Hv.
      apply lookup_singleton_Some in Hv. destruct Hv as [_ <-].
      exists 150. reflexivity.
    - intros key Hkey Haff. cbn [fst snd] in *.
      apply String.eqb_eq in Haff. subst key. right. discriminate. }
  split; [exact H0 | split; [exact H2|]].
  exact (settings_stay_in_ranges ∅ blank two_changes H0 H2).
Defined.

(** X20.  A falsy value (zero, [NaN], [null], [false], the empty text)
    counts as missing: the setting takes its fallback, also where zero
    is below the range. *)
Theorem falsy_setting_takes_fallback
    (x : JsValue.t) (configurationService : gmap string JsValue.t)
    (o : Overlay) :
  JsValue.truthy x = false ->
  let with_value key := <[key := x]> configurationService in
  mouseIndicatorSize
    (updateMouseIndicatorSize (with_value "screencastMode.mouseIndicatorSize") o)
  = of_Z 20
  /\ keyboardFontSize
       (updateKeyboardFontSize (with_value "screencastMode.fontSize") o)
     = of_Z 56
  /\ keyboardBottom
       (updateKeyboardMarker (with_value "screencastMode.verticalOffset") o)
     = of_Z 0
  /\ keyboardMarkerTimeout
       (updateKeyboardMarkerTimeout
          (with_value "screencastMode.keyboardOverlayTimeout") o)
     = of_Z 800.
Proof.
  intros Hx. simpl. rewrite !getValue_set.
  unfold or_else. rewrite Hx. split; [|split; [|split]]; reflexivity.
Qed.

Lemma falsy_setting_takes_fallback_witness :
  keyboardMarkerTimeout
    (updateKeyboardMarkerTimeout
       (<["screencastMode.keyboardOverlayTimeout" := JsValue.of_Z 0]> ∅)
       (run_updates ∅ blank))
  = of_Z 800.
Proof.
  apply (falsy_setting_takes_fallback (JsValue.of_Z 0) ∅).
  reflexivity.
Defined.

End ScreencastMore.

(** ** Screencast keyboard overlay *)
Module ScreencastKeyboardFacts.
Import ScreencastKeyboard.

Example arrows_are_drawn : fixArrows "Ctrl+UpArrow" = "Ctrl+↑".
Proof. reflexivity. Qed.

Example ends_with_suffix : endsWith "K" "Ctrl+K" = true.
Proof. reflexivity. Qed.

Example process_key_code : includes "Key" "KeyA" = true.
Proof. reflexivity. Qed.

(** The key press is an IME key, which the listener does not show. *)
Definition is_process (e : KeyDown) : bool := String.eqb (e_key e) "Process".

(** The key press is a single cursor move that the settings hide. *)
Definition is_hidden_move (cfg : Settings) (e : KeyDown) : bool :=
  truthy_opt (commandId e) && hideSingleEditorCursorMoves cfg
  && is_cursor_move (default EmptyString (commandId e)).

(** What a key press that is shown does to the overlay. *)
Lemma onKeyDown_shown (cfg : Settings) (e : KeyDown) (o : Overlay) :
  is_process e = false ->
  is_hidden_move cfg e = false ->
  truthy_opt (commandId e) || negb (onlyKeyboardShortcuts cfg) = true ->
  exists spans,
    (List.length spans <= 2)%nat
    /\ (format cfg = Some keys -> Forall (fun sp => span_class sp = key) spans)
    /\ onKeyDown cfg e o
       = {| children :=
              (if ctrlKey e || altKey e || metaKey e || shiftKey e
                  || bool_decide (20 < length o)%nat || clears_on (keyCode e)
               then [] else children o) ++ spans;
            length :=
              S (if ctrlKey e || altKey e || metaKey e || shiftKey e
                    || bool_decide (20 < length o)%nat || clears_on (keyCode e)
                 then 0 else length o);
            composing :=
              (if ctrlKey e || altKey e || metaKey e || shiftKey e
                  || bool_decide (20 < length o)%nat || clears_on (keyCode e)
               then match composing o with
                    | Some _ => Some Detached
                    | None => None
                    end
               else composing o);
            scheduled := true |}.
Proof.
  unfold is_process, is_hidden_move. intros Hp Hh Hs.
  unfold onKeyDown. rewrite Hp, Hh, Hs.
  destruct (labels cfg e) as [titleLabel keyLabel].
  set (clear := ctrlKey e || altKey e || metaKey e || shiftKey e
                || bool_decide (20 < length o)%nat || clears_on (keyCode e)).
  destruct (negb (format_is keys (format cfg)) && truthy titleLabel) eqn:Ht;
    destruct (negb (onlyKeyboardShortcuts cfg) || negb (truthy titleLabel)
              || truthy_opt (commandId e)
                 && (format_is keys (format cfg)
                     || format_is commandAndKeys (format cfg)
                     || format_is commandWithGroupAndKeys (format cfg))) eqn:Hk.
  - exists [{| span_class := title; textContent := titleLabel +:+ " " |};
            {| span_class := key;
               textContent := default EmptyString (fixArrows <$> keyLabel) |}].
    split; [simpl; lia|]. split.
    + intros Hf. rewrite Hf in Ht. discriminate Ht.
    + destruct clear; unfold schedule, appendSpan, clearMarker; simpl;
        rewrite <- ?app_assoc; reflexivity.
  - exists [{| span_class := title; textContent := titleLabel +:+ " " |}].
    split; [simpl; lia|]. split.
    + intros Hf. rewrite Hf in Ht. discriminate Ht.
    + destruct clear; unfold schedule, appendSpan, clearMarker; simpl;
        reflexivity.
  - exists [{| span_class := key;
               textContent := default EmptyString (fixArrows <$> keyLabel) |}].
    split; [simpl; lia|]. split.
    + intros _. repeat constructor.
    + destruct clear; unfold schedule, appendSpan, clearMarker; simpl;
        reflexivity.
  - exists []. split; [simpl; lia|]. split.
    + intros _. constructor.
    + destruct clear; unfold schedule, appendSpan, clearMarker; simpl;
        rewrite ?app_nil_r; reflexivity.
Qed.

(** What a key press that is not shown does: nothing but arming the
    timer, or, for an IME key, ending the composition. *)
Lemma onKeyDown_not_shown (cfg : Settings) (e : KeyDown) (o : Overlay) :
  is_process e = true \/ is_hidden_move cfg e = true
  \/ truthy_opt (commandId e) || negb (onlyKeyboardShortcuts cfg) = false ->
  children (onKeyDown cfg e o) = children o
  /\ length (onKeyDown cfg e o) = length o.
Proof.
  unfold is_process, is_hidden_move, onKeyDown. intros H.
  destruct (String.eqb (e_key e) "Process").
  { destruct (negb (includes "Key" (e_code e))); split; reflexivity. }
  destruct (truthy_opt (commandId e) && hideSingleEditorCursorMoves cfg
            && is_cursor_move (default EmptyString (commandId e))).
  { split; reflexivity. }
  destruct H as [H|[H|H]]; try discriminate H.
  rewrite H. split; reflexivity.
Qed.

Lemma onKeyDown_cases (cfg : Settings) (e : KeyDown) :
  (is_process e = false /\ is_hidden_move cfg e = false
   /\ truthy_opt (commandId e) || negb (onlyKeyboardShortcuts cfg) = true)
  \/ (is_process e = true \/ is_hidden_move cfg e = true
      \/ truthy_opt (commandId e) || negb (onlyKeyboardShortcuts cfg) = false).
Proof.
  destruct (is_process e), (is_hidden_move cfg e),
    (truthy_opt (commandId e) || negb (onlyKeyboardShortcuts cfg)); auto.
Qed.

Lemma handle_length (ev : Event) (o : Overlay) :
  (length o <= 21)%nat -> (length (handle ev o) <= 21)%nat.
Proof.
  intros Ho. destruct ev as [cfg e|data| |]; simpl.
  - destruct (onKeyDown_cases cfg e) as [(Hp & Hh & Hs)|Hn].
    + destruct (onKeyDown_shown cfg e o Hp Hh Hs) as (spans & _ & _ & ->).
      cbn [length].
      match goal with
      | |- (S (if ?c then _ else _) <= _)%nat => destruct c eqn:Hc
      end; [lia|].
      apply orb_false_iff in Hc as [Hc _]. apply orb_false_iff in Hc as [_ Hc].
      apply bool_decide_eq_false in Hc. lia.
    + destruct (onKeyDown_not_shown cfg e o Hn) as [_ ->]. exact Ho.
  - unfold onCompositionUpdate.
    destruct (String.eqb data ""); [exact Ho|].
    destruct (composing o) as [[i|]|]; exact Ho.
  - exact Ho.
  - destruct (scheduled o); simpl; [lia | exact Ho].
Qed.

Lemma run_length (evs : list Event) (o : Overlay) :
  (length o <= 21)%nat -> (length (run evs o) <= 21)%nat.
Proof.
  revert o. induction evs as [|ev evs IH]; intros o H; [exact H|].
  apply IH. apply handle_length. exact H.
Qed.

(** X21.  The overlay counts at most 21 key presses, whatever is typed: the
    press that would be the 22nd clears the marker first. *)
Theorem shown_key_presses_bounded (evs : list Event) :
  (length (run evs initial) <= 21)%nat.
Proof.
  apply run_length. unfold initial. cbn [length]. lia.
Qed.

Definition is_composition_update (ev : Event) : bool :=
  match ev with
  | CompositionUpdate _ => true
  | _ => false
  end.

Lemma handle_children (ev : Event) (o : Overlay) :
  is_composition_update ev = false ->
  (List.length (children o) <= 2 * length o)%nat ->
  (List.length (children (handle ev o)) <= 2 * length (handle ev o))%nat.
Proof.
  intros Hev Ho. destruct ev as [cfg e|data| |]; try discriminate Hev; simpl.
  - destruct (onKeyDown_cases cfg e) as [(Hp & Hh & Hs)|Hn].
    + destruct (onKeyDown_shown cfg e o Hp Hh Hs) as (spans & Hlen & _ & ->).
      cbn [children length]. rewrite length_app.
      destruct (_ || _ || _ || _ || _ || _); simpl; lia.
    + destruct (onKeyDown_not_shown cfg e o Hn) as [-> ->]. exact Ho.
  - exact Ho.
  - destruct (scheduled o); simpl; [lia | exact Ho].
Qed.

(** X22.  Without input-method compositions the marker holds at most two
    spans for each key press counted, hence at most 42 spans. *)
Theorem marker_is_bounded (evs : list Event) :
  forallb (fun ev => negb (is_composition_update ev)) evs = true ->
  (List.length (children (run evs initial)) <= 2 * length (run evs initial))%nat
  /\ (List.length (children (run evs initial)) <= 42)%nat.
Proof.
  intros Hevs.
  assert (Hc : (List.length (children (run evs initial))
                <= 2 * length (run evs initial))%nat).
  { assert (H : (List.length (children initial) <= 2 * length initial)%nat)
      by (simpl; lia).
    revert H Hevs. generalize initial.
    induction evs as [|ev evs IH]; intros o H Hevs; [exact H|].
    simpl in Hevs. apply andb_true_iff in Hevs as [Hev Hevs].
    apply negb_true_iff in Hev.
    apply IH; [|exact Hevs]. apply handle_children; assumption. }
  split; [exact Hc|].
  assert ((length (run evs initial) <= 21)%nat)
    by (apply run_length; unfold initial; cbn [length]; lia).
  lia.
Qed.

(** The event is no key press, or one under the format ['keys']. *)
Definition in_keys_format (ev : Event) : bool :=
  match ev with
  | KeyDownEvent cfg _ => format_is keys (format cfg)
  | _ => true
  end.

Lemma format_is_keys (f : option Format) :
  format_is keys f = true -> f = Some keys.
Proof. destruct f as [[]|]; simpl; intros H; try discriminate H; reflexivity. Qed.

Lemma handle_keys_only (ev : Event) (o : Overlay) :
  in_keys_format ev = true ->
  Forall (fun sp => span_class sp = key) (children o) ->
  Forall (fun sp => span_class sp = key) (children (handle ev o)).
Proof.
  intros Hev Ho. destruct ev as [cfg e|data| |]; simpl.
  - simpl in Hev. apply format_is_keys in Hev.
    destruct (onKeyDown_cases cfg e) as [(Hp & Hh & Hs)|Hn].
    + destruct (onKeyDown_shown cfg e o Hp Hh Hs) as (spans & _ & Hk & ->).
      cbn [children]. apply Forall_app. split; [|exact (Hk Hev)].
      destruct (_ || _ || _ || _ || _ || _); [constructor | exact Ho].
    + destruct (onKeyDown_not_shown cfg e o Hn) as [-> _]. exact Ho.
  - unfold onCompositionUpdate.
    destruct (String.eqb data ""); [exact Ho|].
    destruct (composing o) as [[i|]|]; cbn [schedule children].
    + apply Forall_alter; [exact Ho|]. intros sp _ Hsp. exact Hsp.
    + exact Ho.
    + apply Forall_app. split; [exact Ho|]. repeat constructor.
  - exact Ho.
  - destruct (scheduled o); [constructor | exact Ho].
Qed.

(** X23.  Under the format ['keys'] the marker never shows a command title:
    every span in it is a key span. *)
Theorem keys_format_shows_keys_only (evs : list Event) :
  forallb in_keys_format evs = true ->
  Forall (fun sp => span_class sp = key) (children (run evs initial)).
Proof.
  assert (H : Forall (fun sp => span_class sp = key) (children initial))
    by constructor.
  revert H. generalize initial.
  induction evs as [|ev evs IH]; intros o H Hevs; [exact H|].
  simpl in Hevs. apply andb_true_iff in Hevs as [Hev Hevs].
  apply IH; [|exact Hevs]. apply handle_keys_only; assumption.
Qed.

(** X24.  Whatever a key press shows is taken down again: every key press but
    an IME key and a hidden cursor move arms the timer, and when the
    timer fires the overlay is as it was when the mode was switched
    on. *)
Theorem key_press_is_cleared_by_timer (cfg : Settings) (e : KeyDown)
    (o : Overlay) :
  is_process e = false ->
  is_hidden_move cfg e = false ->
  scheduled (onKeyDown cfg e o) = true
  /\ handle TimerFires (onKeyDown cfg e o) = initial.
Proof.
  unfold is_process, is_hidden_move. intros Hp Hh.
  unfold onKeyDown. rewrite Hp, Hh. split; reflexivity.
Qed.

(** X25.  A key press that clears the marker in the middle of a composition
    detaches the span of the composition: what the composition types
    from then on is not shown, until the composition ends. *)
Theorem composition_is_lost_after_clearing_key (cfg : Settings) (e : KeyDown)
    (data : string) (o : Overlay) :
  is_Some (composing o) ->
  is_process e = false ->
  is_hidden_move cfg e = false ->
  truthy_opt (commandId e) || negb (onlyKeyboardShortcuts cfg) = true ->
  ctrlKey e || altKey e || metaKey e || shiftKey e
  || bool_decide (20 < length o)%nat || clears_on (keyCode e) = true ->
  let o1 := onKeyDown cfg e o in
  composing o1 = Some Detached
  /\ children (onCompositionUpdate data o1) = children o1
  /\ composing (onCompositionUpdate data o1) = Some Detached.
Proof.
  intros [x Hx] Hp Hh Hs Hclear o1.
  destruct (onKeyDown_shown cfg e o Hp Hh Hs) as (spans & _ & _ & Ho1).
  rewrite Hclear, Hx in Ho1. unfold o1. rewrite Ho1.
  unfold onCompositionUpdate. cbn [composing].
  destruct (String.eqb data ""); repeat split; reflexivity.
Qed.

(** *** Example inputs *)

Definition plain_settings : Settings :=
  {| hideSingleEditorCursorMoves := false; onlyKeyboardShortcuts := false;
     format := Some keys |}.

Definition key_a : KeyDown :=
  {| e_key := "a"; e_code := "KeyA";
     ctrlKey := false; altKey := false; metaKey := false; shiftKey := false;
     keyCode := OtherKey 31;
     commandId := None; label := Some "A"; menuCommand := None;
     lookupLabels := [] |}.

Definition ctrl_s : KeyDown :=
  {| e_key := "s"; e_code := "KeyS";
     ctrlKey := true; altKey := false; metaKey := false; shiftKey := false;
     keyCode := OtherKey 49;
     commandId := Some "workbench.action.files.save";
     label := Some "Ctrl+S";
     menuCommand := Some {| command_title := "Save";
                            command_category := Some "File" |};
     lookupLabels := [Some "Ctrl+S"] |}.

Lemma marker_is_bounded_witness :
  let evs := [KeyDownEvent plain_settings key_a;
              KeyDownEvent plain_settings ctrl_s;
              CompositionEnd; TimerFires;
              KeyDownEvent plain_settings key_a] in
  (List.length (children (run evs initial)) <= 2 * length (run evs initial))%nat
  /\ (List.length (children (run evs initial)) <= 42)%nat.
Proof.
  apply (marker_is_bounded
           [KeyDownEvent plain_settings key_a;
            KeyDownEvent plain_settings ctrl_s;
            CompositionEnd; TimerFires;
            KeyDownEvent plain_settings key_a]).
  reflexivity.
Defined.

Lemma keys_format_shows_keys_only_witness :
  Forall (fun sp => span_class sp = key)
    (children (run [KeyDownEvent plain_settings ctrl_s;
                    CompositionUpdate "ni";
                    KeyDownEvent plain_settings key_a] initial)).
Proof.
  apply (keys_format_shows_keys_only
           [KeyDownEvent plain_settings ctrl_s;
            CompositionUpdate "ni";
            KeyDownEvent plain_settings key_a]).
  reflexivity.
Defined.

Lemma key_press_is_cleared_by_timer_witness :
  scheduled (onKeyDown plain_settings ctrl_s initial) = true
  /\ handle TimerFires (onKeyDown plain_settings ctrl_s initial) = initial.
Proof.
  apply (key_press_is_cleared_by_timer plain_settings ctrl_s initial).
  - reflexivity.
  - reflexivity.
Defined.

Lemma composition_is_lost_after_clearing_key_witness :
  let o := onCompositionUpdate "n" initial in
  let o1 := onKeyDown plain_settings ctrl_s o in
  composing o1 = Some Detached
  /\ children (onCompositionUpdate "ni" o1) = children o1
  /\ composing (onCompositionUpdate "ni" o1) = Some Detached.
Proof.
  apply (composition_is_lost_after_clearing_key plain_settings ctrl_s "ni"
           (onCompositionUpdate "n" initial)).
  - eexists. reflexivity.
  - reflexivity.
  - reflexivity.
  - reflexivity.
  - reflexivity.
Defined.

Example save_shown_with_keys_only :
  children (onKeyDown plain_settings ctrl_s initial)
  = [{| span_class := key; textContent := "Ctrl+S" |}].
Proof. reflexivity. Qed.

Example save_shown_with_group :
  children
    (onKeyDown {| hideSingleEditorCursorMoves := false;
                  onlyKeyboardShortcuts := false;
                  format := Some commandWithGroupAndKeys |}
               ctrl_s initial)
  = [{| span_class := title; textContent := "File: Save  " |};
     {| span_class := key; textContent := "Ctrl+S" |}].
Proof. reflexivity. Qed.

End ScreencastKeyboardFacts.

(** ** Notebook viewport warm-up *)
Module ViewportWarmupFacts.
Import ViewportWarmup.

(** What the loop of [_renderCell] has checked for an output it
    renders. *)
Definition checked_output (ed : NotebookEditor) (viewCell : CodeCellViewModel)
    (outputs : list ICellOutputViewModel) (eff : Effect) : Prop :=
  exists output picked r,
    eff = createOutput viewCell
            {| renderer := r; source := output;
               inset_mimeType := mimeType picked |} 0
    /\ output ∈ outputs
    /\ existsb isTrusted (fst (resolveMimeTypes output)) = true
    /\ at_index (fst (resolveMimeTypes output)) (snd (resolveMimeTypes output))
       = Some picked
    /\ getRendererInfo ed (rendererId picked) = Some r.

Lemma renderOutputs_checked (ed : NotebookEditor) (viewCell : CodeCellViewModel)
    (outputs : list ICellOutputViewModel) :
  Forall (checked_output ed viewCell outputs) (renderOutputs ed viewCell outputs).
Proof.
  induction outputs as [|output rest IH]; simpl; [constructor|].
  assert (Hrest : Forall (checked_output ed viewCell (output :: rest))
                    (renderOutputs ed viewCell rest)).
  { eapply Forall_impl; [exact IH|].
    intros eff (o & picked & r & Heq & Hin & Htr & Hpick & Hr).
    exists o, picked, r. repeat split; try assumption.
    apply list_elem_of_further. exact Hin. }
  destruct (resolveMimeTypes output) as [mimeTypes pick] eqn:Hres.
  destruct (negb (existsb isTrusted mimeTypes)
            || bool_decide (List.length mimeTypes = 0%nat)) eqn:Hskip;
    [exact Hrest|].
  apply orb_false_iff in Hskip as [Htr _]. apply negb_false_iff in Htr.
  destruct (at_index mimeTypes pick) as [picked|] eqn:Hpick; [|constructor].
  destruct (negb (hasModel ed)); [constructor|].
  destruct (getRendererInfo ed (rendererId picked)) as [r|] eqn:Hr;
    [|constructor].
  constructor; [|exact Hrest].
  exists output, picked, r. rewrite Hres. simpl.
  repeat split; try assumption. apply list_elem_of_here.
Qed.

Lemma renderCell_checked (ed : NotebookEditor)
    (viewCell : CodeCellViewModel) :
  Forall (checked_output ed viewCell (outputsViewModels viewCell))
         (_renderCell ed viewCell).
Proof.
  unfold _renderCell. destruct (isOutputCollapsed viewCell); [constructor|].
  apply renderOutputs_checked.
Qed.

(** X26.  Every output that [_renderCell] renders is an output of the cell
    with a trusted mime type among those resolved for it; what is
    rendered is the picked mime type, with the renderer the notebook
    service knows for it, at offset 0. *)
Theorem rendered_outputs_are_checked (ed : NotebookEditor)
    (viewCell : CodeCellViewModel) :
  Forall (checked_output ed viewCell (outputsViewModels viewCell))
         (_renderCell ed viewCell).
Proof.
  unfold _renderCell. destruct (isOutputCollapsed viewCell).
  - constructor.
  - apply renderOutputs_checked.
Qed.

Definition rendered_source (eff : Effect) : option ICellOutputViewModel :=
  match eff with
  | createOutput _ output _ => Some (source output)
  | createMarkupPreview _ => None
  end.

Lemma renderOutputs_sublist (ed : NotebookEditor) (viewCell : CodeCellViewModel)
    (outputs : list ICellOutputViewModel) :
  omap rendered_source (renderOutputs ed viewCell outputs) `sublist_of` outputs.
Proof.
  induction outputs as [|output rest IH]; simpl; [constructor|].
  destruct (resolveMimeTypes output) as [mimeTypes pick].
  destruct (negb (existsb isTrusted mimeTypes)
            || bool_decide (List.length mimeTypes = 0%nat)).
  { apply sublist_cons. exact IH. }
  destruct (at_index mimeTypes pick) as [picked|]; [|apply sublist_nil_l].
  destruct (negb (hasModel ed)); [apply sublist_nil_l|].
  destruct (getRendererInfo ed (rendererId picked)) as [r|];
    [|apply sublist_nil_l].
  simpl. apply sublist_skip. exact IH.
Qed.

(** X27.  The outputs of a cell are rendered in their order, each at most
    once. *)
Theorem outputs_are_rendered_in_order (ed : NotebookEditor)
    (viewCell : CodeCellViewModel) :
  omap rendered_source (_renderCell ed viewCell)
    `sublist_of` outputsViewModels viewCell.
Proof.
  unfold _renderCell. destruct (isOutputCollapsed viewCell).
  - apply sublist_nil_l.
  - apply renderOutputs_sublist.
Qed.

(** Nothing is rendered for a cell with collapsed output, nor without a
    model, however many outputs the cell has. *)
Lemma nothing_rendered_when_collapsed_or_without_model
    (ed : NotebookEditor) (viewCell : CodeCellViewModel) :
  isOutputCollapsed viewCell = true \/ hasModel ed = false ->
  _renderCell ed viewCell = [].
Proof.
  intros [Hc|Hm]; unfold _renderCell.
  - rewrite Hc. reflexivity.
  - destruct (isOutputCollapsed viewCell); [reflexivity|].
    induction (outputsViewModels viewCell) as [|output rest IH]; simpl;
      [reflexivity|].
    destruct (resolveMimeTypes output) as [mimeTypes pick].
    destruct (negb (existsb isTrusted mimeTypes)
              || bool_decide (List.length mimeTypes = 0%nat)); [exact IH|].
    destruct (at_index mimeTypes pick); [|reflexivity].
    rewrite Hm. reflexivity.
Qed.

Lemma renderCell_only_outputs (ed : NotebookEditor) (c : CodeCellViewModel) :
  List.filter is_createOutput (_renderCell ed c) = _renderCell ed c.
Proof.
  pose proof (renderCell_checked ed c) as H.
  induction H as [|eff effs (o & picked & r & -> & _) _ IH]; simpl;
    [reflexivity|].
  rewrite IH. reflexivity.
Qed.

Lemma filter_flat_map {A B} (p : B -> bool) (f : A -> list B) (l : list A) :
  List.filter p (flat_map f l) = flat_map (fun x => List.filter p (f x)) l.
Proof.
  induction l as [|x l IH]; simpl; [reflexivity|].
  rewrite List.filter_app, IH. reflexivity.
Qed.

Lemma document_cell_is_filtered (ed : NotebookEditor)
    (cell : option ICellViewModel) :
  List.filter is_createOutput (warmupViewportCell ed cell)
  = warmupDocumentCell ed cell.
Proof.
  destruct cell as [[m|c]|]; simpl.
  - destruct (is_markup_preview m); reflexivity.
  - apply renderCell_only_outputs.
  - reflexivity.
Qed.

(** X28.  The warm-up of the document renders exactly the outputs that a
    warm-up of the viewport over all cells renders, in the same order,
    and none of its markup previews. *)
Theorem document_warmup_is_viewport_warmup_without_previews
    (ed : NotebookEditor) :
  isDisposed ed = false ->
  _warmupDocumentNow ed
  = List.filter is_createOutput
      (_warmupViewportNow ed (seq 0 (getLength ed))).
Proof.
  intros Hd. unfold _warmupDocumentNow, _warmupViewportNow. rewrite Hd.
  destruct (hasModel ed); simpl; [|reflexivity].
  rewrite filter_flat_map. apply flat_map_ext.
  intros i. symmetry. apply document_cell_is_filtered.
Qed.

(** X29.  Indexes beyond the last cell are skipped: the warm-up of the
    viewport does the same with and without them. *)
Theorem indexes_outside_the_notebook_are_skipped
    (ed : NotebookEditor) (visibleIndexes : list nat) :
  _warmupViewportNow ed visibleIndexes
  = _warmupViewportNow ed
      (List.filter (fun i => Nat.ltb i (getLength ed)) visibleIndexes).
Proof.
  unfold _warmupViewportNow.
  destruct (isDisposed ed); [reflexivity|].
  destruct (negb (hasModel ed)); [reflexivity|].
  induction visibleIndexes as [|i rest IH]; simpl; [reflexivity|].
  destruct (Nat.ltb_spec i (getLength ed)) as [Hlt|Hge]; simpl.
  - rewrite IH. reflexivity.
  - rewrite <- IH.
    replace (cellAt ed i) with (@None ICellViewModel); [reflexivity|].
    unfold cellAt, getLength in *. destruct (cells ed) as [cs|]; [|reflexivity].
    symmetry. apply lookup_ge_None. exact Hge.
Qed.

(** X30.  Everything the warm-up of the viewport creates belongs to a cell at
    one of the visible indexes: a preview to a markup cell in preview
    state that is not collapsed, an output to a code cell whose output
    is not collapsed. *)
Theorem viewport_warmup_stays_in_viewport
    (ed : NotebookEditor) (visibleIndexes : list nat) :
  Forall
    (fun eff =>
       exists i, i ∈ visibleIndexes
       /\ match eff with
          | createMarkupPreview m =>
              cellAt ed i = Some (Markup m)
              /\ getEditState m = Preview /\ isInputCollapsed m = false
          | createOutput c _ _ =>
              cellAt ed i = Some (Code c) /\ isOutputCollapsed c = false
          end)
    (_warmupViewportNow ed visibleIndexes).
Proof.
  unfold _warmupViewportNow.
  destruct (isDisposed ed); [constructor|].
  destruct (negb (hasModel ed)); [constructor|].
  induction visibleIndexes as [|i rest IH]; simpl; [constructor|].
  apply Forall_app. split.
  - destruct (cellAt ed i) as [[m|c]|] eqn:Hcell; simpl; [| |constructor].
    + unfold is_markup_preview.
      destruct (getEditState m) eqn:He; [|constructor].
      destruct (isInputCollapsed m) eqn:Hc; simpl; constructor; [|constructor].
      exists i. split; [apply list_elem_of_here|]. auto.
    + pose proof (renderCell_checked ed c) as H.
      assert (Hcol : _renderCell ed c <> [] -> isOutputCollapsed c = false).
      { unfold _renderCell. destruct (isOutputCollapsed c); congruence. }
      induction H as [|eff effs (o & picked & r & -> & _) _ IHf];
        constructor.
      * exists i. split; [apply list_elem_of_here|].
        split; [exact Hcell | apply Hcol; discriminate].
      * apply IHf. intros _. apply Hcol. discriminate.
  - eapply Forall_impl; [exact IH|].
    intros eff (j & Hj & H). exists j. split; [|exact H].
    apply list_elem_of_further. exact Hj.
Qed.

(** *** Example inputs *)

Definition png : IOrderedMimeType :=
  {| mimeType := "image/png"; rendererId := "builtin"; isTrusted := true |}.

Definition html : IOrderedMimeType :=
  {| mimeType := "text/html"; rendererId := "builtin"; isTrusted := false |}.

Definition plot : ICellOutputViewModel :=
  {| output_id := 1; resolveMimeTypes := ([html; png], 1) |}.

Definition code_cell : CodeCellViewModel :=
  {| code_handle := 1; isOutputCollapsed := false;
     outputsViewModels := [plot] |}.

Definition collapsed_cell : CodeCellViewModel :=
  {| code_handle := 2; isOutputCollapsed := true;
     outputsViewModels := [plot] |}.

Definition heading : MarkupCellViewModel :=
  {| markup_handle := 3; getEditState := Preview; isInputCollapsed := false |}.

Definition notebook : NotebookEditor :=
  {| isDisposed := false;
     cells := Some [Markup heading; Code code_cell; Code collapsed_cell];
     getRendererInfo :=
       fun id => if String.eqb id "builtin"
                 then Some {| renderer_id := "builtin" |} else None |}.

Example viewport_of_notebook :
  _warmupViewportNow notebook [0; 1; 2; 3]%nat
  = [createMarkupPreview heading;
     createOutput code_cell
       {| renderer := {| renderer_id := "builtin" |}; source := plot;
          inset_mimeType := "image/png" |} 0].
Proof. reflexivity. Qed.

Lemma nothing_rendered_when_collapsed_or_without_model_witness :
  _renderCell notebook collapsed_cell = [].
Proof.
  apply (nothing_rendered_when_collapsed_or_without_model notebook
           collapsed_cell).
  left. reflexivity.
Defined.

Lemma document_warmup_is_viewport_warmup_without_previews_witness :
  _warmupDocumentNow notebook
  = List.filter is_createOutput
      (_warmupViewportNow notebook (seq 0 (getLength notebook))).
Proof.
  apply (document_warmup_is_viewport_warmup_without_previews notebook).
  reflexivity.
Defined.

End ViewportWarmupFacts.
